(** * dockerizalo: the app controller and the compose generator

    A shallow embedding of [src/helpers/docker.ts] and
    [src/controllers/apps.ts].

    - JavaScript values that end up in the compose document are a small
      value tree, objects being property lists in insertion order with
      the overwrite-in-place semantics of property definition and of the
      spread operator.
    - Request handlers run in a monad that threads the state of the
      outside world (store, file system, container runtime, event hub,
      connection) through every call to a collaborator, propagates thrown
      values, and records each call with its result in a trace.
    - The handlers that write to the store ([createApp], [updateApp],
      [deleteApp]) run in the same kind of monad, over a trace that adds
      the validation of the body and the writes to the store and the
      disk. *)

From Stdlib Require Import ZArith Lia.
From stdpp Require Import base option list strings gmap pretty.

Local Open Scope string_scope.
Local Open Scope list_scope.
Set Warnings "-register-all".

(** ** JavaScript values *)

Module Js.

(** Property list of a plain object, in insertion order. *)
Abbreviation props V := (list (string * V)).

Inductive value : Type :=
| Undefined
| Null
| Str (s : string)
| Bool (b : bool)
| Arr (xs : list value)
| Obj (ps : props value).

(** [ToBoolean]. *)
Definition truthy (v : value) : bool :=
  match v with
  | Undefined | Null => false
  | Str s => negb (bool_decide (s = ""))
  | Bool b => b
  | Arr _ | Obj _ => true
  end.

(** [o[k]] on own properties. *)
Fixpoint get {V} (k : string) (o : props V) : option V :=
  match o with
  | [] => None
  | (k', v) :: o' => if decide (k' = k) then Some v else get k o'
  end.

(** [o[k] = v]: an existing key keeps its position, a new key goes last.
    (Array-index keys, which JavaScript enumerates first, keep their
    insertion position here; no statement below depends on the order of
    enumeration of such keys.) *)
Fixpoint set {V} (k : string) (v : V) (o : props V) : props V :=
  match o with
  | [] => [(k, v)]
  | (k', v') :: o' =>
      if decide (k' = k) then (k, v) :: o' else (k', v') :: set k v o'
  end.

(** [{...target, ...src}]: the own properties of [src] are defined on
    [target] one after the other. *)
Definition spread {V} (target src : props V) : props V :=
  foldl (fun acc kv => set kv.1 kv.2 acc) target src.

(** [Object.fromEntries(entries)]. *)
Definition fromEntries {V} (entries : list (string * V)) : props V :=
  spread [] entries.

Definition keys {V} (o : props V) : list string := o.*1.

(** The value a key has after all of [entries] were written in order. *)
Fixpoint last_write {V} (k : string) (entries : list (string * V)) : option V :=
  match entries with
  | [] => None
  | (k', v) :: rest =>
      match last_write k rest with
      | Some v' => Some v'
      | None => if decide (k' = k) then Some v else None
      end
  end.

End Js.

(** ** Store records *)

(** Modelled from the spec: the Prisma schema is not part of the sources.
    The records are "flat key/value-shaped": an external/internal port
    pair (integers, as in the scenario [{external:8080, internal:80}]),
    a host/internal path pair, a key/value pair, a network name with its
    external flag, a key/value pair; a build has an id and the id of the
    app it belongs to. *)
Record App := { app_id : string; app_name : string }.
Record Build := { build_id : string; build_appId : string }.
Record PortMapping := { port_external : Z; port_internal : Z }.
Record BindMount := { mount_host : string; mount_internal : string }.
Record EnvironmentVariable := { var_key : string; var_value : string }.
Record Network := { net_name : string; net_external : bool }.
Record Label := { label_key : string; label_value : string }.

(** ** src/helpers/docker.ts *)

Module Docker.
Import Js.

(** [`${port.external}:${port.internal}`] *)
Definition port_entry (port : PortMapping) : string :=
  pretty (port_external port) +:+ ":" +:+ pretty (port_internal port).

(** [`${volume.host}:${volume.internal}`] *)
Definition volume_entry (volume : BindMount) : string :=
  mount_host volume +:+ ":" +:+ mount_internal volume.

(** [variables.reduce((acc, variable) =>
      ({...acc, [variable.key]: variable.value}), {})] *)
Definition environment (variables : list EnvironmentVariable) : props value :=
  foldl (fun acc variable =>
           set (var_key variable) (Str (var_value variable)) (spread [] acc))
        [] variables.

(** [labels.reduce((acc, label) => ({...acc, [label.key]: label.value}), {})] *)
Definition labels_map (labels : list Label) : props value :=
  foldl (fun acc label =>
           set (label_key label) (Str (label_value label)) (spread [] acc))
        [] labels.

(** [Object.fromEntries(networks.map((network) =>
      [network.name, {name: network.name, external: network.external}]))] *)
Definition networks_map (networks : list Network) : props value :=
  fromEntries
    (map (fun network =>
            (net_name network,
             Obj [("name", Str (net_name network));
                  ("external", Bool (net_external network))]))
         networks).

(** [...(xs.length ? {key: section} : {})] *)
Definition optional {A} (xs : list A) (key : string) (section : value)
  : props value :=
  match length xs with
  | O => []
  | S _ => [(key, section)]
  end.

(** The [app] service of the object literal [compose]. *)
Definition service
    (build : Build) (ports : list PortMapping) (volumes : list BindMount)
    (variables : list EnvironmentVariable) (networks : list Network)
    (labels : list Label) : props value :=
  let o := [("image", Str ("dockerizalo-" +:+ build_id build));
            ("container_name", Str ("dockerizalo-" +:+ build_appId build));
            ("restart", Str "unless-stopped")] in
  let o := spread o (optional ports "ports" (Arr (map (Str ∘ port_entry) ports))) in
  let o := spread o (optional variables "environment" (Obj (environment variables))) in
  let o := spread o (optional labels "labels" (Obj (labels_map labels))) in
  let o := spread o (optional volumes "volumes" (Arr (map (Str ∘ volume_entry) volumes))) in
  spread o (optional networks "networks" (Arr (map (Str ∘ net_name) networks))).

(** The object literal [compose]. *)
Definition compose
    (build : Build) (ports : list PortMapping) (volumes : list BindMount)
    (variables : list EnvironmentVariable) (networks : list Network)
    (labels : list Label) : props value :=
  let o := [("services",
             Obj [("app", Obj (service build ports volumes variables networks labels))])] in
  spread o (optional networks "networks" (Obj (networks_map networks))).

(** [createComposeConfiguration]: the YAML serialisation [dump] belongs
    to the js-yaml package and is taken as a parameter. *)
Definition createComposeConfiguration (dump : value -> string)
    (build : Build) (ports : list PortMapping) (volumes : list BindMount)
    (variables : list EnvironmentVariable) (networks : list Network)
    (labels : list Label) : string :=
  dump (Obj (compose build ports volumes variables networks labels)).

(** A section of the [app] service of a document. *)
Definition service_section (key : string) (doc : props value) : option value :=
  match get "services" doc with
  | Some (Obj services) =>
      match get "app" services with
      | Some (Obj app) => get key app
      | _ => None
      end
  | _ => None
  end.

(** The last value recorded for a key in a list of key/value records. *)
Definition last_variable (k : string) (variables : list EnvironmentVariable)
  : option string :=
  last_write k (map (fun v => (var_key v, var_value v)) variables).

Definition last_label (k : string) (labels : list Label) : option string :=
  last_write k (map (fun l => (label_key l, label_value l)) labels).

Definition last_network (k : string) (networks : list Network) : option bool :=
  last_write k (map (fun n => (net_name n, net_external n)) networks).

(** A section that is there exactly when its source list is not empty. *)
Definition when_nonempty {A B} (xs : list A) (section : B) : option B :=
  match xs with
  | [] => None
  | _ :: _ => Some section
  end.

Definition key_when_nonempty {A} (xs : list A) (key : string) : list string :=
  match xs with
  | [] => []
  | _ :: _ => [key]
  end.

End Docker.

(** ** Effects of a request handler *)

(** A thrown value (the reason of a rejected promise), as far as the
    handlers look at it: an object, with its [err] property printed when
    it has one; a value that is not an object; the marker that
    [retry(error)] throws inside the retry loop. *)
Inductive exn : Type :=
| ErrorObject (err : option string) (message : string)
| Primitive (text : string)
| RetryError (retried : exn).

Inductive outcome (A : Type) : Type :=
| Returned (a : A)
| Thrown (e : exn).
Arguments Returned {A} a.
Arguments Thrown {A} e.

(** Modelled from the spec: the request type belongs to express; the
    handlers below read only the [appId] route parameter. *)
Record Request := { params_appId : string }.

(** The five lists read by [prisma.$transaction] in [startApp]. *)
Record Fragments := {
  frag_ports : list PortMapping;
  frag_volumes : list BindMount;
  frag_variables : list EnvironmentVariable;
  frag_networks : list Network;
  frag_labels : list Label
}.

(** What [res.on("close", ...)] registers. *)
Inductive close_handler : Type :=
| RemoveAppSubscriber (id : string) (app : App)
| AbortAbort.

(** One entry of the trace: a call to a collaborator with its arguments
    and its result, recorded when the call completes, or an action on the
    response. *)
Inductive event : Type :=
| AuthenticateUser (req : Request) (r : outcome unit)
| AppFindMany (r : outcome (list App))
| AppFindUnique (id : string) (r : outcome (option App))
| BuildFindUnique (id : string) (r : outcome (option Build))
| Transaction (appId : string) (r : outcome Fragments)
| GetAllContainersStatus (r : outcome (gmap string Js.value))
| GetContainerStatus (name : string) (r : outcome Js.value)
| GetAppDirectory (app : App) (r : outcome (option string))
| GetOrCreateAppDirectory (app : App) (r : outcome string)
| GetComposeConfiguration (directory : string) (r : outcome (option Js.value))
| GetComposeImage (compose : Js.value) (r : outcome (option string))
| IsImageAvailable (image : string) (r : outcome bool)
| SaveComposeConfiguration (document directory : string) (r : outcome unit)
| StartComposeStack (directory : string) (r : outcome unit)
| StopComposeStack (directory : string) (r : outcome unit)
| GetContainerLogs (name : string) (r : outcome unit)
| CreateBuild (req : Request) (r : outcome unit)
| SendAppEvent (appId : string) (r : outcome unit)
| AddAppSubscriber (app : App) (r : outcome string)
| SignalAborted (aborted : bool)
| SetTimeout (delay : Z)
| ResStatusJson (code : Z) (body : Js.value)
| ResSetHeader (name value : string)
| ResFlushHeaders
| ResOnClose (handler : close_handler)
| ResWrite (payload : Js.value).

(** The collaborators of the controller, over the state [W] of the
    outside world.  Every call may change the world and may throw.
    [getContainerLogs] also returns the chunks it passed to its progress
    callback; [signal_aborted] is [abort.signal.aborted], that is whether
    the listener registered with [res.on("close", ...)] has run; [timer]
    is the world after a delay; [retry_minTimeout] and [retry_factor] are
    the base interval and the factor of the retry package, which the
    controller leaves at their defaults. *)
Set Implicit Arguments.
Record Collaborators (W : Type) := {
  authenticateUser : Request -> W -> outcome unit * W;
  app_findMany : W -> outcome (list App) * W;
  app_findUnique : string -> W -> outcome (option App) * W;
  build_findUnique : string -> W -> outcome (option Build) * W;
  transaction : string -> W -> outcome Fragments * W;
  getAllContainersStatus : W -> outcome (gmap string Js.value) * W;
  getContainerStatus : string -> W -> outcome Js.value * W;
  getAppDirectory : App -> W -> outcome (option string) * W;
  getOrCreateAppDirectory : App -> W -> outcome string * W;
  getComposeConfiguration : string -> W -> outcome (option Js.value) * W;
  getComposeImage : Js.value -> W -> outcome (option string) * W;
  isImageAvailable : string -> W -> outcome bool * W;
  saveComposeConfiguration : string -> string -> W -> outcome unit * W;
  startComposeStack : string -> W -> outcome unit * W;
  stopComposeStack : string -> W -> outcome unit * W;
  getContainerLogs : string -> W -> list Js.value * outcome unit * W;
  createBuild : Request -> W -> outcome unit * W;
  sendAppEvent : string -> W -> outcome unit * W;
  addAppSubscriber : App -> W -> outcome string * W;
  signal_aborted : W -> bool;
  timer : Z -> W -> W;
  dump : Js.value -> string;
  retry_minTimeout : Z;
  retry_factor : Z
}.
Unset Implicit Arguments.


Module Run.

(** A computation: from a world to an outcome, the next world and the
    events of the step. *)
Definition M (W A : Type) : Type := W -> outcome A * W * list event.

Definition ret {W A} (a : A) : M W A := fun w => (Returned a, w, []).

Definition throw {W A} (e : exn) : M W A := fun w => (Thrown e, w, []).

Definition bind {W A B} (m : M W A) (k : A -> M W B) : M W B :=
  fun w =>
    let '(r, w1, t1) := m w in
    match r with
    | Returned a => let '(r2, w2, t2) := k a w1 in (r2, w2, t1 ++ t2)
    | Thrown e => (Thrown e, w1, t1)
    end.

(** [try { m } catch (e) { h e }] *)
Definition try_catch {W A} (m : M W A) (h : exn -> M W A) : M W A :=
  fun w =>
    let '(r, w1, t1) := m w in
    match r with
    | Returned a => (Returned a, w1, t1)
    | Thrown e => let '(r2, w2, t2) := h e w1 in (r2, w2, t1 ++ t2)
    end.

(** A call to a collaborator, recorded with its result. *)
Definition call {W A} (op : W -> outcome A * W) (log : outcome A -> event)
  : M W A :=
  fun w => let '(r, w1) := op w in (r, w1, [log r]).

(** An action on the response. *)
Definition emit {W} (e : event) : M W unit := fun w => (Returned tt, w, [e]).

(** A promise that is neither awaited nor caught: its outcome is lost. *)
Definition detach {W A} (m : M W A) : M W unit :=
  fun w => let '(_, w1, t1) := m w in (Returned tt, w1, t1).

Definition result {W A} (x : outcome A * W * list event) : outcome A := x.1.1.
Definition world {W A} (x : outcome A * W * list event) : W := x.1.2.
Definition trace {W A} (x : outcome A * W * list event) : list event := x.2.

End Run.

Declare Scope run_scope.
Delimit Scope run_scope with run.
Notation "'let*' x ':=' m 'in' k" := (Run.bind m (fun x => k))
  (at level 10, x binder, m at level 100, k at level 200) : run_scope.
Notation "m ';;' k" := (Run.bind m (fun _ => k))
  (at level 100, k at level 200, right associativity) : run_scope.

(** ** src/controllers/apps.ts *)

Module Apps.
Import Run.

(** [image.replace("dockerizalo-", "")] with a string pattern: the first
    occurrence of the pattern is deleted, nothing else.  (Strings are
    byte strings here and sequences of UTF-16 code units in JavaScript;
    the pattern being ASCII, the first occurrence is the same.) *)
Fixpoint delete_first (pattern s : string) : string :=
  if String.prefix pattern s then
    String.substring (String.length pattern)
      (String.length s - String.length pattern) s
  else
    match s with
    | EmptyString => EmptyString
    | String c s' => String c (delete_first pattern s')
    end.

(** A string or nullish value under a truthiness test: what the
    continuation sees when the value is truthy. *)
Definition truthy_string (o : option string) : option string :=
  match o with
  | Some s => if decide (s = "") then None else Some s
  | None => None
  end.

(** A value or nullish under a truthiness test. *)
Definition truthy_value (o : option Js.value) : option Js.value :=
  match o with
  | Some v => if Js.truthy v then Some v else None
  | None => None
  end.

(** [x === "literal"] *)
Definition is_string (literal : string) (x : Js.value) : bool :=
  match x with
  | Js.Str s => bool_decide (s = literal)
  | _ => false
  end.

(** [x?.status] *)
Definition optional_status (x : option Js.value) : Js.value :=
  match x with
  | Some (Js.Obj ps) => default Js.Undefined (Js.get "status" ps)
  | _ => Js.Undefined
  end.

(** [x ?? d] *)
Definition nullish_or (x d : Js.value) : Js.value :=
  match x with
  | Js.Undefined | Js.Null => d
  | _ => x
  end.

(** The own properties of an app record. *)
Definition app_props (app : App) : Js.props Js.value :=
  [("id", Js.Str (app_id app)); ("name", Js.Str (app_name app))].

(** [{...app, status: status}] *)
Definition app_with_status (app : App) (status : Js.value) : Js.value :=
  Js.Obj (Js.set "status" status (Js.spread [] (app_props app))).

(** [{ message: text }] *)
Definition message (text : string) : Js.value :=
  Js.Obj [("message", Js.Str text)].

(** [`dockerizalo-${id}`], the name the single-app handlers query. *)
Definition container_name (id : string) : string := "dockerizalo-" +:+ id.

(** [`/dockerizalo-${app.id}`], the key [listApps] looks up. *)
Definition listed_name (id : string) : string := "/dockerizalo-" +:+ id.

(** ["err" in e]: a [TypeError] when [e] is not an object. *)
Definition in_err (e : exn) : outcome (option string) :=
  match e with
  | ErrorObject err _ => Returned err
  | RetryError _ => Returned None
  | Primitive _ =>
      Thrown (ErrorObject None "TypeError: Cannot use 'in' operator to search for 'err'")
  end.

(** Modelled from the spec: the promise-retry package is not part of the
    sources.  "Retry with bounded backoff (capped interval, unbounded
    attempt count)", "a capped-exponential-or-fixed delay": the delay
    before retry number [attempt] (from 0) is the base interval times a
    power of the factor, cut at the cap. *)
Definition backoff (minTimeout factor maxTimeout : Z) (attempt : nat) : Z :=
  Z.min (minTimeout * factor ^ Z.of_nat attempt) maxTimeout.

Section Handlers.
Context {W : Type} (C : Collaborators W).
Local Open Scope run_scope.

Definition res_status_json (code : Z) (body : Js.value) : M W unit :=
  emit (ResStatusJson code body).

(** The three [res.setHeader] calls and [res.flushHeaders()] of the
    event-stream handlers. *)
Definition open_event_stream : M W unit :=
  emit (ResSetHeader "Cache-Control" "no-cache");;
  emit (ResSetHeader "Content-Type" "text/event-stream");;
  emit (ResSetHeader "Connection" "keep-alive");;
  emit ResFlushHeaders.

Definition listApps (req : Request) : M W unit :=
  call (authenticateUser C req) (AuthenticateUser req);;
  let* apps := call (app_findMany C) AppFindMany in
  let* containers := call (getAllContainersStatus C) GetAllContainersStatus in
  let status :=
    map (fun app =>
           app_with_status app
             (nullish_or (optional_status (containers !! listed_name (app_id app)))
                         (Js.Str "exited")))
        apps in
  res_status_json 200 (Js.Arr status).

Definition listenApp (req : Request) : M W unit :=
  call (authenticateUser C req) (AuthenticateUser req);;
  let* app := call (app_findUnique C (params_appId req))
                   (AppFindUnique (params_appId req)) in
  match app with
  | None => res_status_json 404 (message "There is no app with that id")
  | Some app =>
      open_event_stream;;
      let* id := call (addAppSubscriber C app) (AddAppSubscriber app) in
      emit (ResOnClose (RemoveAppSubscriber id app));;
      let* status := call (getContainerStatus C (container_name (app_id app)))
                          (GetContainerStatus (container_name (app_id app))) in
      emit (ResWrite (app_with_status app status))
  end.

Definition startApp (req : Request) : M W unit :=
  call (authenticateUser C req) (AuthenticateUser req);;
  let* app := call (app_findUnique C (params_appId req))
                   (AppFindUnique (params_appId req)) in
  match app with
  | None => res_status_json 404 (message "An app with that id does not exist")
  | Some app =>
  let* status := call (getContainerStatus C (container_name (params_appId req)))
                      (GetContainerStatus (container_name (params_appId req))) in
  if is_string "running" status then
    res_status_json 400 (message "The app is already running")
  else
  let* directory := call (getAppDirectory C app) (GetAppDirectory app) in
  match truthy_string directory with
  | None => call (createBuild C req) (CreateBuild req)
  | Some directory =>
  let* compose := call (getComposeConfiguration C directory)
                       (GetComposeConfiguration directory) in
  match truthy_value compose with
  | None => call (createBuild C req) (CreateBuild req)
  | Some compose =>
  let* image := call (getComposeImage C compose) (GetComposeImage compose) in
  match truthy_string image with
  | None => call (createBuild C req) (CreateBuild req)
  | Some image =>
  let buildId := delete_first "dockerizalo-" image in
  if decide (buildId = "") then call (createBuild C req) (CreateBuild req)
  else
  let* build := call (build_findUnique C buildId) (BuildFindUnique buildId) in
  match build with
  | None => call (createBuild C req) (CreateBuild req)
  | Some build =>
  let* available := call (isImageAvailable C image) (IsImageAvailable image) in
  if negb available then call (createBuild C req) (CreateBuild req)
  else
  let* f := call (transaction C (app_id app)) (Transaction (app_id app)) in
  let document :=
    Docker.createComposeConfiguration (dump C) build (frag_ports f)
      (frag_volumes f) (frag_variables f) (frag_networks f) (frag_labels f) in
  call (saveComposeConfiguration C document directory)
       (SaveComposeConfiguration document directory);;
  let* started :=
    try_catch
      (call (startComposeStack C directory) (StartComposeStack directory);;
       ret true)
      (fun e =>
         match in_err e with
         | Thrown type_error => throw type_error
         | Returned (Some err) =>
             res_status_json 500
               (message ("Error when running project: " +:+ err));;
             ret false
         | Returned None => throw e
         end) in
  if negb started then ret tt
  else
  call (sendAppEvent C (app_id app)) (SendAppEvent (app_id app));;
  res_status_json 200 (message "App is now running")
  end end end end end.

Definition stopApp (req : Request) : M W unit :=
  call (authenticateUser C req) (AuthenticateUser req);;
  let* app := call (app_findUnique C (params_appId req))
                   (AppFindUnique (params_appId req)) in
  match app with
  | None => res_status_json 404 (message "An app with that id does not exist")
  | Some app =>
  let* status := call (getContainerStatus C (container_name (params_appId req)))
                      (GetContainerStatus (container_name (params_appId req))) in
  if negb (is_string "running" status) && negb (is_string "restarting" status) then
    res_status_json 400 (message "The app is not running")
  else
  let* directory := call (getOrCreateAppDirectory C app)
                         (GetOrCreateAppDirectory app) in
  call (stopComposeStack C directory) (StopComposeStack directory);;
  call (sendAppEvent C (app_id app)) (SendAppEvent (app_id app));;
  res_status_json 200 (message "App has stopped")
  end.

(** [getContainerLogs(name, (progress) => res.write(...), abort.signal)]:
    every chunk is written to the response as it arrives. *)
Definition stream_logs (name : string) : M W unit :=
  fun w =>
    let '(chunks, r, w1) := getContainerLogs C name w in
    (r, w1, map ResWrite chunks ++ [GetContainerLogs name r]).

(** [abort.signal.aborted] *)
Definition read_aborted : M W bool :=
  fun w => (Returned (signal_aborted C w), w, [SignalAborted (signal_aborted C w)]).

(** The timer of the retry package. *)
Definition set_timeout (delay : Z) : M W unit :=
  fun w => (Returned tt, timer C delay w, [SetTimeout delay]).

(** The function handed to [promiseRetry]:
    [(retry) => getContainerLogs(...).catch((error) =>
       !abort.signal.aborted ? retry(error) : undefined)],
    where [retry(error)] throws the marker the package recognises. *)
Definition tail_logs (req : Request) : M W unit :=
  try_catch (stream_logs (container_name (params_appId req)))
    (fun error =>
       let* aborted := read_aborted in
       if negb aborted then throw (RetryError error) else ret tt).

(** Modelled from the spec: the promise-retry package is not part of the
    sources.  This is [promiseRetry(fn, { forever: true, maxTimeout })],
    "an unbounded retry loop": the function is run; when it asks for a
    retry, the next run is scheduled after the capped delay, with no bound
    on the number of attempts; any other outcome settles the loop.
    [fuel] bounds the number of runs that are unfolded: [None] is a loop
    that has not settled yet. *)
Fixpoint promiseRetry {A} (fuel : nat) (fn : M W A) (maxTimeout : Z)
    (attempt : nat) : M W (option A) :=
  match fuel with
  | O => ret None
  | S fuel' =>
      try_catch (let* a := fn in ret (Some a))
        (fun e =>
           match e with
           | RetryError _ =>
               set_timeout (backoff (retry_minTimeout C) (retry_factor C)
                                    maxTimeout attempt);;
               promiseRetry fuel' fn maxTimeout (S attempt)
           | _ => throw e
           end)
  end.

(** The expression [promiseRetry(..., { forever: true, maxTimeout: 1000 })]
    of [listenAppLogs]. *)
Definition supervise_logs (fuel : nat) (req : Request) : M W (option unit) :=
  promiseRetry fuel (tail_logs req) 1000 0.

(** The adapter fails [n] more times, the signal not having fired when
    each failure is handled, and then succeeds; [attempt] is the number of
    retries so far, which fixes the delays the world goes through. *)
Fixpoint fails_then_succeeds (n attempt : nat) (req : Request) (w : W) : Prop :=
  match n with
  | O =>
      exists chunks w1,
        getContainerLogs C (container_name (params_appId req)) w
        = (chunks, Returned tt, w1)
  | S n' =>
      exists chunks e w1,
        getContainerLogs C (container_name (params_appId req)) w
        = (chunks, Thrown e, w1)
        /\ signal_aborted C w1 = false
        /\ fails_then_succeeds n' (S attempt) req
             (timer C (backoff (retry_minTimeout C) (retry_factor C) 1000 attempt) w1)
  end.

Definition listenAppLogs (fuel : nat) (req : Request) : M W unit :=
  call (authenticateUser C req) (AuthenticateUser req);;
  let* app := call (app_findUnique C (params_appId req))
                   (AppFindUnique (params_appId req)) in
  match app with
  | None => res_status_json 404 (message "An app with that id does not exist")
  | Some app =>
  let* status := call (getContainerStatus C (container_name (params_appId req)))
                      (GetContainerStatus (container_name (params_appId req))) in
  if negb (is_string "running" status) && negb (is_string "restarting" status) then
    res_status_json 400 (message "The app is not running")
  else
  open_event_stream;;
  emit (ResOnClose AbortAbort);;
  detach (supervise_logs fuel req)
  end.

End Handlers.

(** The calls that go to the container runtime (services/docker). *)
Definition is_runtime_call (e : event) : bool :=
  match e with
  | GetAllContainersStatus _ | GetContainerStatus _ _
  | GetComposeConfiguration _ _ | GetComposeImage _ _
  | IsImageAvailable _ _ | SaveComposeConfiguration _ _ _
  | StartComposeStack _ _ | StopComposeStack _ _ | GetContainerLogs _ _ => true
  | _ => false
  end.

(** The answers that make one of the reuse checks of [startApp] fail: no
    directory, no configuration, no image in the configuration, an image
    whose derived build id is empty, no build with that id, an image the
    runtime does not have. *)
Definition reuse_check_failed (e : event) : bool :=
  match e with
  | GetAppDirectory _ (Returned directory) =>
      match truthy_string directory with None => true | Some _ => false end
  | GetComposeConfiguration _ (Returned compose) =>
      match truthy_value compose with None => true | Some _ => false end
  | GetComposeImage _ (Returned image) =>
      match truthy_string image with
      | None => true
      | Some image =>
          if decide (delete_first "dockerizalo-" image = "") then true else false
      end
  | BuildFindUnique _ (Returned None) => true
  | IsImageAvailable _ (Returned available) => negb available
  | _ => false
  end.

Definition is_get_compose_image (e : event) : bool :=
  match e with GetComposeImage _ _ => true | _ => false end.

(** The event that follows the first event selected by [p]. *)
Fixpoint event_after (p : event -> bool) (tr : list event) : option event :=
  match tr with
  | [] => None
  | e :: tr' => if p e then head tr' else event_after p tr'
  end.

Definition is_start_stack (e : event) : bool :=
  match e with StartComposeStack _ _ => true | _ => false end.

Definition is_stop_stack (e : event) : bool :=
  match e with StopComposeStack _ _ => true | _ => false end.

Definition is_create_build (e : event) : bool :=
  match e with CreateBuild _ _ => true | _ => false end.

Definition is_send_app_event (e : event) : bool :=
  match e with SendAppEvent _ _ => true | _ => false end.

Definition is_set_timeout (e : event) : bool :=
  match e with SetTimeout _ => true | _ => false end.

(** A scheduled delay does not exceed [cap]. *)
Definition timeout_within (cap : Z) (e : event) : bool :=
  match e with
  | SetTimeout delay => (delay <=? cap)%Z
  | _ => true
  end.


Definition is_get_container_logs (e : event) : bool :=
  match e with GetContainerLogs _ _ => true | _ => false end.

Definition is_stream_action (e : event) : bool :=
  match e with
  | ResSetHeader _ _ | ResFlushHeaders | ResOnClose _ | ResWrite _
  | AddAppSubscriber _ _ | GetContainerLogs _ _ => true
  | _ => false
  end.

End Apps.

(** ** A scripted world

    A test double for the collaborators: every answer is read off a
    script, log tailing fails [logs_failures] more times and the
    connection closes when [logs_close_at] failures remain. *)

Module Script.

Record world := {
  apps : list App;
  builds : list Build;
  containers : gmap string Js.value;
  directory : option string;
  compose_image : option string;
  images : list string;
  fragments : Fragments;
  start_error : option exn;
  logs_failures : nat;
  logs_close_at : option nat;
  closed : bool
}.

Definition status_of (name : string) (w : world) : Js.value :=
  Apps.optional_status (containers w !! ("/" +:+ name)).

Definition tail (w : world) : list Js.value * outcome unit * world :=
  match logs_failures w with
  | O => ([Js.Str "line"], Returned tt, w)
  | S n =>
      ([], Thrown (ErrorObject None "socket hang up"),
       {| apps := apps w; builds := builds w; containers := containers w;
          directory := directory w; compose_image := compose_image w;
          images := images w; fragments := fragments w;
          start_error := start_error w; logs_failures := n;
          logs_close_at := logs_close_at w;
          closed := closed w || bool_decide (logs_close_at w = Some n) |})
  end.

Definition collaborators : Collaborators world := {|
  authenticateUser := fun _ w => (Returned tt, w);
  app_findMany := fun w => (Returned (apps w), w);
  app_findUnique := fun id w =>
    (Returned (List.find (fun a => bool_decide (app_id a = id)) (apps w)), w);
  build_findUnique := fun id w =>
    (Returned (List.find (fun b => bool_decide (build_id b = id)) (builds w)), w);
  transaction := fun _ w => (Returned (fragments w), w);
  getAllContainersStatus := fun w => (Returned (containers w), w);
  getContainerStatus := fun name w => (Returned (status_of name w), w);
  getAppDirectory := fun _ w => (Returned (directory w), w);
  getOrCreateAppDirectory := fun app w =>
    (Returned (default ("/apps/" +:+ app_id app) (directory w)), w);
  getComposeConfiguration := fun _ w =>
    (Returned (Some (Js.Obj [("image", from_option Js.Str Js.Undefined (compose_image w))])), w);
  getComposeImage := fun _ w => (Returned (compose_image w), w);
  isImageAvailable := fun image w =>
    (Returned (bool_decide (image ∈ images w)), w);
  saveComposeConfiguration := fun _ _ w => (Returned tt, w);
  startComposeStack := fun _ w =>
    (from_option Thrown (Returned tt) (start_error w), w);
  stopComposeStack := fun _ w => (Returned tt, w);
  getContainerLogs := fun _ w => tail w;
  createBuild := fun _ w => (Returned tt, w);
  sendAppEvent := fun _ w => (Returned tt, w);
  addAppSubscriber := fun _ w => (Returned "1", w);
  signal_aborted := closed;
  timer := fun _ w => w;
  dump := fun _ => "";
  retry_minTimeout := 1000;
  retry_factor := 2
|}.

Definition web : App := {| app_id := "a1"; app_name := "web" |}.

Definition no_fragments : Fragments :=
  {| frag_ports := []; frag_volumes := []; frag_variables := [];
     frag_networks := []; frag_labels := [] |}.

(** The app [web] with one build [b1], its container registered under
    [key] in the given state (if any), and the given directory, image in
    the configuration, error of the stack start, failures of the log
    tailing and moment the connection closes. *)
Definition scene (key : string) (state : option string)
    (dir image : option string) (error : option exn) (failures : nat)
    (close_at : option nat) : world := {|
  apps := [web];
  builds := [{| build_id := "b1"; build_appId := "a1" |}];
  containers :=
    match state with
    | Some st => {[ key := Js.Obj [("status", Js.Str st)] ]}
    | None => ∅
    end;
  directory := dir;
  compose_image := image;
  images := ["dockerizalo-b1"];
  fragments := no_fragments;
  start_error := error;
  logs_failures := failures;
  logs_close_at := close_at;
  closed := false
|}.

(** A usable build on disk, the container in the given state. *)
Definition ready (state : option string) : world :=
  scene "/dockerizalo-a1" state (Some "/apps/a1") (Some "dockerizalo-b1")
    None 0 None.

(** No directory yet. *)
Definition unbuilt : world :=
  scene "/dockerizalo-a1" None None None None 0 None.

(** The configuration names the bare prefix as its image. *)
Definition bare_prefix : world :=
  scene "/dockerizalo-a1" None (Some "/apps/a1") (Some "dockerizalo-")
    None 0 None.

(** The stack fails to start with a runtime error. *)
Definition failing_start : world :=
  scene "/dockerizalo-a1" (Some "exited") (Some "/apps/a1")
    (Some "dockerizalo-b1")
    (Some (ErrorObject (Some "no such image") "compose up failed")) 0 None.

(** The log tailing fails twice before it succeeds. *)
Definition flaky : world :=
  scene "/dockerizalo-a1" (Some "running") (Some "/apps/a1")
    (Some "dockerizalo-b1") None 2 None.

(** The connection closes during the first failure of the log tailing. *)
Definition hung_up : world :=
  scene "/dockerizalo-a1" (Some "running") (Some "/apps/a1")
    (Some "dockerizalo-b1") None 2 (Some 1).

(** The runtime reports a running container under the plain name
    [dockerizalo-a1], without the leading slash. *)
Definition plain_name : world :=
  scene "dockerizalo-a1" (Some "running") None None None 0 None.

Definition start_a1 : Request := {| params_appId := "a1" |}.

End Script.

(** ** The handlers that write to the store *)

Module Crud.
Import Run Apps.

(** Modelled from the spec: the validator ([validators/create-app]) is not
    part of the sources.  What it returns is the data of an app, of which
    the handlers read the name. *)
Record AppData := { data_name : string }.

(** The request as [createApp], [updateApp] and [deleteApp] read it: the
    route parameters, [req.query.force] and [req.body]. *)
Record StoreRequest := {
  route : Request;
  query_force : Js.value;
  body : Js.value
}.

(** The trace of these handlers: the events of the other handlers, the
    validation of the body and the writes to the store and to the disk. *)
Inductive store_event : Type :=
| Core (e : event)
| ValidatorParse (body : Js.value) (r : outcome AppData)
| AppFindByName (name : string) (r : outcome (option App))
| AppFindOtherByName (name id : string) (r : outcome (option App))
| AppCreate (data : AppData) (r : outcome App)
| AppUpdate (data : AppData) (id : string) (r : outcome App)
| AppDelete (id : string) (r : outcome unit)
| DeleteAppDirectory (app : App) (r : outcome unit).

(** The collaborators only these handlers use: [createAppValidator.parse],
    [prisma.app.findUnique] by name, and by name excluding an id,
    [prisma.app.create], [update] and [delete], [deleteAppDirectory]. *)
Set Implicit Arguments.
Record Store (W : Type) := {
  validator_parse : Js.value -> outcome AppData;
  app_findByName : string -> W -> outcome (option App) * W;
  app_findOtherByName : string -> string -> W -> outcome (option App) * W;
  app_create : AppData -> W -> outcome App * W;
  app_update : AppData -> string -> W -> outcome App * W;
  app_delete : string -> W -> outcome unit * W;
  deleteAppDirectory : App -> W -> outcome unit * W
}.
Unset Implicit Arguments.

Definition T (W A : Type) : Type := W -> outcome A * W * list store_event.

Definition pure {W A} (a : A) : T W A := fun w => (Returned a, w, []).

Definition and_then {W A B} (m : T W A) (k : A -> T W B) : T W B :=
  fun w =>
    let '(r, w1, t1) := m w in
    match r with
    | Returned a => let '(r2, w2, t2) := k a w1 in (r2, w2, t1 ++ t2)
    | Thrown e => (Thrown e, w1, t1)
    end.

(** A computation of the other handlers, its events kept. *)
Definition core {W A} (m : M W A) : T W A :=
  fun w => let '(r, w1, t1) := m w in (r, w1, map Core t1).

(** A call to a collaborator of the store, recorded with its result. *)
Definition store_call {W A} (op : W -> outcome A * W)
    (log : outcome A -> store_event) : T W A :=
  fun w => let '(r, w1) := op w in (r, w1, [log r]).

(** A synchronous call that does not touch the world. *)
Definition sync_call {W A} (r : outcome A) (log : outcome A -> store_event)
  : T W A :=
  fun w => (r, w, [log r]).

End Crud.

Declare Scope store_scope.
Delimit Scope store_scope with store.
Notation "'let*' x ':=' m 'in' k" := (Crud.and_then m (fun x => k))
  (at level 10, x binder, m at level 100, k at level 200) : store_scope.
Notation "m ';;' k" := (Crud.and_then m (fun _ => k))
  (at level 100, k at level 200, right associativity) : store_scope.

Module StoreHandlers.
Import Run Apps Crud.

Section Handlers.
Context {W : Type} (C : Collaborators W) (S : Store W).
Local Open Scope store_scope.

Definition respond (code : Z) (body : Js.value) : T W unit :=
  core (res_status_json code body).

Definition authenticate (req : StoreRequest) : T W unit :=
  core (call (authenticateUser C (route req)) (AuthenticateUser (route req))).

Definition find_app (req : StoreRequest) : T W (option App) :=
  core (call (app_findUnique C (params_appId (route req)))
             (AppFindUnique (params_appId (route req)))).

Definition createApp (req : StoreRequest) : T W unit :=
  authenticate req;;
  let* data := sync_call (validator_parse S (body req)) (ValidatorParse (body req)) in
  let* exists_ := store_call (app_findByName S (data_name data))
                             (AppFindByName (data_name data)) in
  match exists_ with
  | Some _ => respond 400 (message "An app with that name already exists")
  | None =>
      let* app := store_call (app_create S data) (AppCreate data) in
      respond 201 (Js.Obj (app_props app))
  end.

Definition deleteApp (req : StoreRequest) : T W unit :=
  authenticate req;;
  let* app := find_app req in
  match app with
  | None => respond 404 (message "An app with that id does not exist")
  | Some app =>
      let force := is_string "true" (query_force req) in
      (if force then
         let* directory := core (call (getOrCreateAppDirectory C app)
                                      (GetOrCreateAppDirectory app)) in
         core (call (stopComposeStack C directory) (StopComposeStack directory));;
         store_call (deleteAppDirectory S app) (DeleteAppDirectory app)
       else pure tt);;
      store_call (app_delete S (app_id app)) (AppDelete (app_id app));;
      respond 200 (message "The app has been deleted...")
  end.

Definition updateApp (req : StoreRequest) : T W unit :=
  authenticate req;;
  let* data := sync_call (validator_parse S (body req)) (ValidatorParse (body req)) in
  let* app := find_app req in
  match app with
  | None => respond 404 (message "An app with that id does not exist")
  | Some app =>
      let* conflicting :=
        store_call (app_findOtherByName S (data_name data) (app_id app))
                   (AppFindOtherByName (data_name data) (app_id app)) in
      match conflicting with
      | Some _ => respond 400 (message "An app with that name already exists")
      | None =>
          let* updated := store_call (app_update S data (app_id app))
                                     (AppUpdate data (app_id app)) in
          core (call (sendAppEvent C (app_id app)) (SendAppEvent (app_id app)));;
          respond 200 (Js.Obj (app_props updated))
      end
  end.

End Handlers.

(** The writes: to the store, to the disk, to the runtime. *)
Definition is_write (e : store_event) : bool :=
  match e with
  | AppCreate _ _ | AppUpdate _ _ _ | AppDelete _ _ | DeleteAppDirectory _ _ => true
  | Core (GetOrCreateAppDirectory _ _) | Core (StopComposeStack _ _)
  | Core (SendAppEvent _ _) => true
  | _ => false
  end.

(** What [deleteApp] does to the stack and to the disk when forced. *)
Definition touches_stack_or_disk (e : store_event) : bool :=
  match e with
  | Core (GetOrCreateAppDirectory _ _) | Core (StopComposeStack _ _)
  | DeleteAppDirectory _ _ => true
  | _ => false
  end.

(** The removal of the directory or of the record of an app. *)
Definition is_removal (e : store_event) : bool :=
  match e with
  | DeleteAppDirectory _ _ | AppDelete _ _ => true
  | _ => false
  end.

Definition is_store_response (e : store_event) : bool :=
  match e with Core (ResStatusJson _ _) => true | _ => false end.

End StoreHandlers.

(** ** Reading a trace *)

Module Trace.

Definition is_response (e : event) : bool :=
  match e with ResStatusJson _ _ => true | _ => false end.

(** What settles a request: a JSON response, the hand-over to the
    build-creation collaborator, or the opening of an event stream. *)
Definition is_answer (e : event) : bool :=
  match e with
  | ResStatusJson _ _ | CreateBuild _ _ | ResFlushHeaders => true
  | _ => false
  end.

Definition is_save_configuration (e : event) : bool :=
  match e with SaveComposeConfiguration _ _ _ => true | _ => false end.

Definition is_write_chunk (e : event) : bool :=
  match e with ResWrite _ => true | _ => false end.

(** The signal was read and had not fired. *)
Definition is_signal_open (e : event) : bool :=
  match e with SignalAborted false => true | _ => false end.

(** The events of the retry loop of the log stream. *)
Definition is_loop_event (e : event) : bool :=
  match e with
  | ResWrite _ | GetContainerLogs _ _ | SignalAborted _ | SetTimeout _ => true
  | _ => false
  end.

(** The request was answered at most once, and once if the handler
    returned. *)
Definition answered_once {W} (run : outcome unit * W * list event) : Prop :=
  length (List.filter is_answer (Run.trace run)) <= 1
  /\ (Run.result run = Returned tt ->
      length (List.filter is_answer (Run.trace run)) = 1).

End Trace.

(** ** More scripts

    The scripted world with faults injected, and a scripted store for the
    handlers that write. *)

Module Faults.
Import Script.

(** The scripted collaborators, except that authentication and the stop
    of the stack throw the given errors. *)
Definition collaborators (auth stop : option exn) : Collaborators world := {|
  authenticateUser := fun req w =>
    match auth with
    | Some e => (Thrown e, w)
    | None => authenticateUser Script.collaborators req w
    end;
  app_findMany := app_findMany Script.collaborators;
  app_findUnique := app_findUnique Script.collaborators;
  build_findUnique := build_findUnique Script.collaborators;
  transaction := transaction Script.collaborators;
  getAllContainersStatus := getAllContainersStatus Script.collaborators;
  getContainerStatus := getContainerStatus Script.collaborators;
  getAppDirectory := getAppDirectory Script.collaborators;
  getOrCreateAppDirectory := getOrCreateAppDirectory Script.collaborators;
  getComposeConfiguration := getComposeConfiguration Script.collaborators;
  getComposeImage := getComposeImage Script.collaborators;
  isImageAvailable := isImageAvailable Script.collaborators;
  saveComposeConfiguration := saveComposeConfiguration Script.collaborators;
  startComposeStack := startComposeStack Script.collaborators;
  stopComposeStack := fun directory w =>
    match stop with
    | Some e => (Thrown e, w)
    | None => stopComposeStack Script.collaborators directory w
    end;
  getContainerLogs := getContainerLogs Script.collaborators;
  createBuild := createBuild Script.collaborators;
  sendAppEvent := sendAppEvent Script.collaborators;
  addAppSubscriber := addAppSubscriber Script.collaborators;
  signal_aborted := signal_aborted Script.collaborators;
  timer := timer Script.collaborators;
  dump := dump Script.collaborators;
  retry_minTimeout := retry_minTimeout Script.collaborators;
  retry_factor := retry_factor Script.collaborators
|}.

Definition unauthorized : exn := ErrorObject None "Unauthorized".

Definition daemon_down : exn := ErrorObject (Some "daemon is down") "compose down failed".

(** The apps of a world replaced. *)
Definition with_apps (l : list App) (w : world) : world := {|
  apps := l; builds := builds w; containers := containers w;
  directory := directory w; compose_image := compose_image w;
  images := images w; fragments := fragments w;
  start_error := start_error w; logs_failures := logs_failures w;
  logs_close_at := logs_close_at w; closed := closed w
|}.

(** The directory of a world removed. *)
Definition without_directory (w : world) : world := {|
  apps := apps w; builds := builds w; containers := containers w;
  directory := None; compose_image := None;
  images := images w; fragments := fragments w;
  start_error := start_error w; logs_failures := logs_failures w;
  logs_close_at := logs_close_at w; closed := closed w
|}.

(** A validator that wants an object with a non-empty [name]. *)
Definition parse (body : Js.value) : outcome Crud.AppData :=
  match body with
  | Js.Obj ps =>
      match Js.get "name" ps with
      | Some (Js.Str n) =>
          if decide (n = "") then Thrown (ErrorObject None "ZodError")
          else Returned {| Crud.data_name := n |}
      | _ => Thrown (ErrorObject None "ZodError")
      end
  | _ => Thrown (ErrorObject None "ZodError")
  end.

Definition store : Crud.Store world := {|
  Crud.validator_parse := parse;
  Crud.app_findByName := fun name w =>
    (Returned (List.find (fun a => bool_decide (app_name a = name)) (apps w)), w);
  Crud.app_findOtherByName := fun name id w =>
    (Returned (List.find (fun a => bool_decide (app_name a = name)
                                   && negb (bool_decide (app_id a = id)))
                         (apps w)), w);
  Crud.app_create := fun data w =>
    let app := {| app_id := "a" +:+ pretty (S (length (apps w)));
                  app_name := Crud.data_name data |} in
    (Returned app, with_apps (apps w ++ [app]) w);
  Crud.app_update := fun data id w =>
    let app := {| app_id := id; app_name := Crud.data_name data |} in
    (Returned app,
     with_apps (map (fun a => if bool_decide (app_id a = id) then app else a)
                    (apps w)) w);
  Crud.app_delete := fun id w =>
    (Returned tt,
     with_apps (List.filter (fun a => negb (bool_decide (app_id a = id))) (apps w)) w);
  Crud.deleteAppDirectory := fun _ w => (Returned tt, without_directory w)
|}.

Definition named (name : string) : Js.value := Js.Obj [("name", Js.Str name)].

Definition store_request (force : Js.value) (body : Js.value) : Crud.StoreRequest :=
  {| Crud.route := start_a1; Crud.query_force := force; Crud.body := body |}.

End Faults.

(** ** Names, contracts and two more scripts *)

Module Naming.



End Naming.

Module Retag.
Import Script.

(** The configuration on disk names the image [b1], the bare id of the
    build, and the runtime has an image under that tag; it has none under
    [dockerizalo-b1]. *)
Definition bare_id : world := {|
  apps := [web];
  builds := [{| build_id := "b1"; build_appId := "a1" |}];
  containers := ∅;
  directory := Some "/apps/a1";
  compose_image := Some "b1";
  images := ["b1"];
  fragments := no_fragments;
  start_error := None;
  logs_failures := 0;
  logs_close_at := None;
  closed := false
|}.

(** The start of the stack rejects with a string instead of an error
    object. *)
Definition rejects_with_string : world :=
  scene "/dockerizalo-a1" (Some "exited") (Some "/apps/a1")
    (Some "dockerizalo-b1") (Some (Primitive "boom")) 0 None.

End Retag.

(** * Properties *)

(** ** Objects *)

Module JsFacts.
Import Js.

Lemma get_set {V} (k k' : string) (v : V) (o : props V) :
  get k (set k' v o) = if decide (k' = k) then Some v else get k o.
Proof.
  induction o as [|[k0 v0] o IH]; simpl.
  - destruct (decide (k' = k)); reflexivity.
  - destruct (decide (k0 = k')) as [->|Hne]; simpl.
    + destruct (decide (k' = k)); reflexivity.
    + destruct (decide (k0 = k)) as [->|Hne'].
      * destruct (decide (k' = k)); [congruence | reflexivity].
      * exact IH.
Qed.

(** Reading a key after a spread: the last write of the key in the
    source wins, otherwise the target's value stays. *)
Lemma get_spread {V} (k : string) (src target : props V) :
  get k (spread target src) =
  match last_write k src with
  | Some v => Some v
  | None => get k target
  end.
Proof.
  unfold spread. revert target.
  induction src as [|[k' v] src IH]; intros target; simpl; [reflexivity|].
  rewrite IH. destruct (last_write k src); [reflexivity|].
  rewrite get_set. by destruct (decide (k' = k)).
Qed.

Lemma set_fresh {V} (k : string) (v : V) (o : props V) :
  k ∉ keys o -> set k v o = o ++ [(k, v)].
Proof.
  unfold keys. induction o as [|[k0 v0] o IH]; simpl; intros Hk; [reflexivity|].
  rewrite not_elem_of_cons in Hk. destruct Hk as [Hne Hk].
  destruct (decide (k0 = k)); [congruence|]. by rewrite IH.
Qed.

(** Copying an object with distinct keys gives the same property list. *)
Lemma spread_distinct {V} (target src : props V) :
  NoDup (keys (target ++ src)) -> spread target src = target ++ src.
Proof.
  unfold spread, keys. revert target.
  induction src as [|[k v] src IH]; intros target Hnd; simpl.
  - by rewrite app_nil_r.
  - rewrite set_fresh.
    + rewrite IH; rewrite <- app_assoc; [reflexivity | exact Hnd].
    + rewrite fmap_app in Hnd. apply NoDup_app in Hnd as (_ & Hd & _).
      intros Hin. apply (Hd k Hin). simpl. left.
Qed.

Lemma keys_set {V} (k : string) (v : V) (o : props V) :
  keys (set k v o) = if decide (k ∈ keys o) then keys o else keys o ++ [k].
Proof.
  unfold keys. induction o as [|[k0 v0] o IH]; csimpl.
  - destruct (decide (k ∈ [])) as [Hin|_]; [by apply elem_of_nil in Hin | reflexivity].
  - destruct (decide (k0 = k)) as [->|Hne]; csimpl.
    + rewrite decide_True; [reflexivity | left].
    + rewrite IH. destruct (decide (k ∈ o.*1)) as [Hin|Hnin].
      * rewrite decide_True; [reflexivity | by right].
      * rewrite decide_False; [reflexivity|].
        rewrite not_elem_of_cons. split; [congruence | exact Hnin].
Qed.

Lemma NoDup_keys_set {V} (k : string) (v : V) (o : props V) :
  NoDup (keys o) -> NoDup (keys (set k v o)).
Proof.
  intros Hnd. rewrite keys_set. destruct (decide (k ∈ keys o)); [exact Hnd|].
  apply NoDup_app. split_and!; [exact Hnd | | apply NoDup_singleton].
  intros x Hx Hx'. apply list_elem_of_singleton in Hx'. congruence.
Qed.

Lemma spread_empty {V} (o : props V) : NoDup (keys o) -> spread [] o = o.
Proof. intros Hnd. by rewrite spread_distinct. Qed.

(** With distinct keys the last write is the only one. *)
Lemma last_write_distinct {V} (k : string) (o : props V) :
  NoDup (keys o) -> last_write k o = get k o.
Proof.
  unfold keys. induction o as [|[k0 v0] o IH]; simpl; intros Hnd; [reflexivity|].
  apply NoDup_cons in Hnd as [Hnin Hnd]. rewrite (IH Hnd).
  destruct (decide (k0 = k)) as [->|Hne]; [|by destruct (get k o)].
  destruct (get k o) as [v|] eqn:Hget; [|reflexivity].
  exfalso. apply Hnin. clear -Hget.
  induction o as [|[k1 v1] o IH]; simpl in *; [discriminate|].
  destruct (decide (k1 = k)) as [->|]; [left | right; by apply IH].
Qed.

Lemma last_write_app {V} (k : string) (xs ys : list (string * V)) :
  last_write k (xs ++ ys) =
  match last_write k ys with
  | Some v => Some v
  | None => last_write k xs
  end.
Proof.
  induction xs as [|[k0 v0] xs IH]; simpl.
  - by destruct (last_write k ys).
  - rewrite IH. by destruct (last_write k ys).
Qed.

(** A fold that rebuilds the accumulator with a spread and writes one
    key, as the two [reduce] calls of the generator do. *)
Lemma fold_copy_set {A} (key : A -> string) (val : A -> value)
    (xs : list A) (acc : props value) :
  NoDup (keys acc) ->
  let r := foldl (fun acc x => set (key x) (val x) (spread [] acc)) acc xs in
  NoDup (keys r) /\
  forall k, get k r =
            match last_write k (map (fun x => (key x, val x)) xs) with
            | Some v => Some v
            | None => get k acc
            end.
Proof.
  revert acc. induction xs as [|x xs IH]; intros acc Hnd; simpl.
  - split; [exact Hnd | reflexivity].
  - rewrite (spread_empty acc Hnd).
    destruct (IH (set (key x) (val x) acc) (NoDup_keys_set _ _ _ Hnd)) as [Hnd' Hget].
    split; [exact Hnd'|]. intros k. rewrite Hget.
    destruct (last_write k (map _ xs)); [reflexivity|].
    rewrite get_set. by destruct (decide (key x = k)).
Qed.

End JsFacts.

(** ** The compose generator *)

Module DockerFacts.
Import Js Docker JsFacts.

Example scenario_1 :
  service {| build_id := "b1"; build_appId := "web" |}
    [{| port_external := 8080; port_internal := 80 |}] [] [] [] []
  = [("image", Str "dockerizalo-b1");
     ("container_name", Str "dockerizalo-web");
     ("restart", Str "unless-stopped");
     ("ports", Arr [Str "8080:80"])].
Proof. vm_compute. reflexivity. Qed.

Lemma environment_spec (variables : list EnvironmentVariable) :
  NoDup (keys (environment variables)) /\
  forall k, get k (environment variables) = Str <$> last_variable k variables.
Proof.
  pose proof (fold_copy_set var_key (fun v => Str (var_value v)) variables []
                (NoDup_nil_2)) as H.
  cbv beta zeta in H. destruct H as [Hnd Hget].
  split; [exact Hnd|]. intros k. unfold environment, last_variable.
  rewrite (Hget k). clear.
  induction variables as [|v vs IH]; simpl in *; [reflexivity|].
  destruct (last_write k (map (fun x => (var_key x, Str (var_value x))) vs)),
           (last_write k (map (fun v => (var_key v, var_value v)) vs));
    simplify_eq/=; try done.
  by destruct (decide (var_key v = k)).
Qed.

Lemma labels_map_spec (labels : list Label) :
  NoDup (keys (labels_map labels)) /\
  forall k, get k (labels_map labels) = Str <$> last_label k labels.
Proof.
  pose proof (fold_copy_set label_key (fun l => Str (label_value l)) labels []
                (NoDup_nil_2)) as H.
  cbv beta zeta in H. destruct H as [Hnd Hget].
  split; [exact Hnd|]. intros k. unfold labels_map, last_label.
  rewrite (Hget k). clear.
  induction labels as [|l ls IH]; simpl in *; [reflexivity|].
  destruct (last_write k (map (fun x => (label_key x, Str (label_value x))) ls)),
           (last_write k (map (fun l => (label_key l, label_value l)) ls));
    simplify_eq/=; try done.
  by destruct (decide (label_key l = k)).
Qed.

Lemma networks_map_spec (networks : list Network) (k : string) :
  get k (networks_map networks) =
  (fun external => Obj [("name", Str k); ("external", Bool external)])
    <$> last_network k networks.
Proof.
  unfold networks_map, fromEntries, last_network. rewrite get_spread. simpl.
  induction networks as [|n ns IH]; simpl in *; [reflexivity|].
  destruct (last_write k (map (fun n => (net_name n, net_external n)) ns)); simpl in *.
  - destruct (last_write k (map _ ns)); simplify_eq/=; done.
  - destruct (last_write k (map _ ns)); simplify_eq/=.
    destruct (decide (net_name n = k)) as [<-|]; done.
Qed.

Lemma last_write_last {V} (k : string) (v : V) (pre post : list (string * V)) :
  k ∉ keys post -> last_write k (pre ++ (k, v) :: post) = Some v.
Proof.
  intros Hk. rewrite last_write_app. simpl.
  assert (last_write k post = None) as ->.
  { unfold keys in Hk. induction post as [|[k0 v0] post IH]; [reflexivity|].
    csimpl in Hk. rewrite not_elem_of_cons in Hk. destruct Hk as [Hne Hk].
    simpl. rewrite (IH Hk). destruct (decide (k0 = k)); congruence. }
  by rewrite decide_True.
Qed.

Lemma last_write_absent {V} (k : string) (entries : list (string * V)) :
  k ∉ keys entries -> last_write k entries = None.
Proof.
  unfold keys. induction entries as [|[k0 v0] entries IH]; [reflexivity|].
  csimpl. rewrite not_elem_of_cons. intros [Hne Hk].
  simpl. rewrite (IH Hk). destruct (decide (k0 = k)); congruence.
Qed.

Lemma last_variable_last (key val : string) (pre post : list EnvironmentVariable) :
  key ∉ map var_key post ->
  last_variable key (pre ++ {| var_key := key; var_value := val |} :: post)
  = Some val.
Proof.
  intros Hk. unfold last_variable. rewrite map_app. simpl.
  apply last_write_last. unfold keys.
  by rewrite <- list_fmap_compose.
Qed.

Lemma last_label_last (key val : string) (pre post : list Label) :
  key ∉ map label_key post ->
  last_label key (pre ++ {| label_key := key; label_value := val |} :: post)
  = Some val.
Proof.
  intros Hk. unfold last_label. rewrite map_app. simpl.
  apply last_write_last. unfold keys.
  by rewrite <- list_fmap_compose.
Qed.

Section Generated.
Variables (build : Build) (ports : list PortMapping) (volumes : list BindMount)
  (variables : list EnvironmentVariable) (networks : list Network)
  (labels : list Label).

Let doc := compose build ports volumes variables networks labels.

(** C2: the generated document has a section exactly for the non-empty
    input lists.  The [app] service carries [ports], [environment],
    [labels], [volumes] and [networks] exactly when the ports, variables,
    labels, volumes and networks lists are non-empty, the document carries
    a top-level [networks] mapping exactly when the networks list is
    non-empty, and neither object has any other optional key.  The
    sections are spelled out: a port is the decimal external port, a
    colon, the decimal internal port (so [8080] and [80] give [8080:80]);
    a volume is the host path, a colon, the internal path; the service
    lists the network names; [environment] and [labels] map every key of
    their list to its last value and no other key; the top-level mapping
    maps every name to [{name, external}]. *)
Theorem compose_sections_iff_nonempty :
  (forall dump,
      createComposeConfiguration dump build ports volumes variables networks labels
      = dump (Obj doc))
  /\ service_section "ports" doc
     = when_nonempty ports
         (Arr (map (fun port =>
                      Str (pretty (port_external port) +:+ ":"
                           +:+ pretty (port_internal port)))
                   ports))
  /\ (ports = [{| port_external := 8080; port_internal := 80 |}] ->
      service_section "ports" doc = Some (Arr [Str "8080:80"]))
  /\ service_section "environment" doc
     = when_nonempty variables (Obj (environment variables))
  /\ (forall key,
         get key (environment variables) = Str <$> last_variable key variables)
  /\ service_section "labels" doc
     = when_nonempty labels (Obj (labels_map labels))
  /\ (forall key,
         get key (labels_map labels) = Str <$> last_label key labels)
  /\ service_section "volumes" doc
     = when_nonempty volumes
         (Arr (map (fun volume =>
                      Str (mount_host volume +:+ ":" +:+ mount_internal volume))
                   volumes))
  /\ service_section "networks" doc
     = when_nonempty networks
         (Arr (map (fun network => Str (net_name network)) networks))
  /\ get "networks" doc = when_nonempty networks (Obj (networks_map networks))
  /\ (forall name,
         get name (networks_map networks)
         = (fun external => Obj [("name", Str name); ("external", Bool external)])
             <$> last_network name networks)
  /\ keys doc = "services" :: key_when_nonempty networks "networks"
  /\ keys (service build ports volumes variables networks labels)
     = ["image"; "container_name"; "restart"]
         ++ key_when_nonempty ports "ports"
         ++ key_when_nonempty variables "environment"
         ++ key_when_nonempty labels "labels"
         ++ key_when_nonempty volumes "volumes"
         ++ key_when_nonempty networks "networks".
Proof.
  subst doc. split; [reflexivity|].
  assert (forall k, get k (networks_map networks) = _) as Hnet
    by exact (networks_map_spec networks).
  pose proof (proj2 (environment_spec variables)) as Henv.
  pose proof (proj2 (labels_map_spec labels)) as Hlab.
  split_and!.
  - destruct ports, variables, labels, volumes, networks; reflexivity.
  - intros ->. destruct variables, labels, volumes, networks;
      vm_compute; reflexivity.
  - destruct ports, variables, labels, volumes, networks; reflexivity.
  - exact Henv.
  - destruct ports, variables, labels, volumes, networks; reflexivity.
  - exact Hlab.
  - destruct ports, variables, labels, volumes, networks; reflexivity.
  - destruct ports, variables, labels, volumes, networks; reflexivity.
  - destruct ports, variables, labels, volumes, networks; reflexivity.
  - exact Hnet.
  - destruct ports, variables, labels, volumes, networks; reflexivity.
  - destruct ports, variables, labels, volumes, networks; reflexivity.
Qed.

End Generated.

(** One port mapping and nothing else. *)
Lemma compose_sections_iff_nonempty_witness :
  service_section "ports"
    (compose {| build_id := "b1"; build_appId := "web" |}
       [{| port_external := 8080; port_internal := 80 |}] [] [] [] [])
  = Some (Arr [Str "8080:80"]).
Proof.
  exact (proj1 (proj2 (proj2
           (compose_sections_iff_nonempty {| build_id := "b1"; build_appId := "web" |}
              [{| port_external := 8080; port_internal := 80 |}] [] [] [] [])))
           eq_refl).
Defined.


(** C3: last write wins.  When the variables (labels) list is not empty,
    the [environment] ([labels]) section of the generated document is a
    mapping with distinct keys in which every key has the value of its
    last occurrence in the list; hence two lists that are permutations of
    each other and agree on the last occurrence of every key give the
    same value for every key. *)
Theorem fold_last_write_wins
    (build : Build) (ports : list PortMapping) (volumes : list BindMount)
    (variables : list EnvironmentVariable) (networks : list Network)
    (labels : list Label) :
  let doc := compose build ports volumes variables networks labels in
  (variables <> [] ->
   service_section "environment" doc = Some (Obj (environment variables)))
  /\ (labels <> [] ->
      service_section "labels" doc = Some (Obj (labels_map labels)))
  /\ NoDup (keys (environment variables))
  /\ NoDup (keys (labels_map labels))
  /\ (forall pre key val post,
         variables = pre ++ {| var_key := key; var_value := val |} :: post ->
         key ∉ map var_key post ->
         get key (environment variables) = Some (Str val))
  /\ (forall pre key val post,
         labels = pre ++ {| label_key := key; label_value := val |} :: post ->
         key ∉ map label_key post ->
         get key (labels_map labels) = Some (Str val))
  /\ (forall key, key ∉ map var_key variables ->
                  get key (environment variables) = None)
  /\ (forall key, key ∉ map label_key labels ->
                  get key (labels_map labels) = None)
  /\ (forall variables',
         variables' ≡ₚ variables ->
         (forall key, last_variable key variables' = last_variable key variables) ->
         forall key, get key (environment variables')
                     = get key (environment variables))
  /\ (forall labels',
         labels' ≡ₚ labels ->
         (forall key, last_label key labels' = last_label key labels) ->
         forall key, get key (labels_map labels') = get key (labels_map labels)).
Proof.
  intros doc.
  destruct (environment_spec variables) as [Hnd_env Hget_env].
  destruct (labels_map_spec labels) as [Hnd_lab Hget_lab].
  split_and!.
  - intros Hne. subst doc. clear -Hne.
    destruct variables; [done|].
    destruct ports, labels, volumes, networks; reflexivity.
  - intros Hne. subst doc. clear -Hne.
    destruct labels; [done|].
    destruct ports, variables, volumes, networks; reflexivity.
  - exact Hnd_env.
  - exact Hnd_lab.
  - intros pre key val post -> Hk. rewrite Hget_env.
    by rewrite last_variable_last.
  - intros pre key val post -> Hk. rewrite Hget_lab.
    by rewrite last_label_last.
  - intros key Hk. rewrite Hget_env. unfold last_variable.
    rewrite last_write_absent; [reflexivity|].
    unfold keys. by rewrite <- list_fmap_compose.
  - intros key Hk. rewrite Hget_lab. unfold last_label.
    rewrite last_write_absent; [reflexivity|].
    unfold keys. by rewrite <- list_fmap_compose.
  - intros variables' _ Hlast key.
    destruct (environment_spec variables') as [_ Hget'].
    by rewrite Hget', Hget_env, Hlast.
  - intros labels' _ Hlast key.
    destruct (labels_map_spec labels') as [_ Hget'].
    by rewrite Hget', Hget_lab, Hlast.
Qed.

(** Three variables, the key [A] twice: [A] gets its second value. *)
Lemma fold_last_write_wins_witness :
  let variables :=
    [{| var_key := "A"; var_value := "1" |};
     {| var_key := "B"; var_value := "2" |};
     {| var_key := "A"; var_value := "3" |}] in
  variables <> [] /\ ("A" ∉ map var_key []) /\
  service_section "environment"
    (compose {| build_id := "b1"; build_appId := "a1" |} [] [] variables [] [])
  = Some (Obj (environment variables)) /\
  get "A" (environment variables) = Some (Str "3").
Proof.
  intros variables.
  pose proof (fold_last_write_wins {| build_id := "b1"; build_appId := "a1" |}
                [] [] variables [] []) as (Hsec & _ & _ & _ & Hlast & _).
  assert (variables <> []) as Hne by discriminate.
  assert ("A" ∉ map var_key []) as Hk by apply not_elem_of_nil.
  split_and!; [exact Hne | exact Hk | exact (Hsec Hne) |].
  exact (Hlast [{| var_key := "A"; var_value := "1" |};
                {| var_key := "B"; var_value := "2" |}] "A" "3" [] eq_refl Hk).
Defined.

End DockerFacts.

(** ** The controller *)

Module AppsFacts.
Import Run Apps.

(** *** Deleting the first occurrence of a pattern *)

Lemma delete_first_unfold (pattern s : string) :
  delete_first pattern s =
  if String.prefix pattern s then
    String.substring (String.length pattern)
      (String.length s - String.length pattern) s
  else
    match s with
    | EmptyString => EmptyString
    | String c s' => String c (delete_first pattern s')
    end.
Proof. destruct s; reflexivity. Qed.

(** [delete_first] against the first occurrence as [String.index]
    finds it: the text before it and the text after it are kept. *)
Lemma delete_first_index (pattern s : string) :
  delete_first pattern s =
  match String.index 0 pattern s with
  | None => s
  | Some n =>
      String.substring 0 n s
      +:+ String.substring (n + String.length pattern)
            (String.length s - (n + String.length pattern)) s
  end.
Proof.
  induction s as [|c s IH].
  - rewrite delete_first_unfold. destruct pattern; reflexivity.
  - rewrite delete_first_unfold. cbn [String.index].
    destruct (String.prefix pattern (String c s)); [reflexivity|].
    rewrite IH. destruct (String.index 0 pattern s) as [n|]; reflexivity.
Qed.

Lemma substring_to_end_length (n : nat) (s : string) :
  String.length (String.substring n (String.length s - n) s) = String.length s - n.
Proof.
  revert n. induction s as [|c s IH]; intros [|n]; simpl; try reflexivity.
  - specialize (IH 0). rewrite Nat.sub_0_r in IH. by rewrite IH.
  - apply IH.
Qed.

Lemma prefix_length (p s : string) :
  String.prefix p s = true ->
  String.length p <= String.length s
  /\ (String.length s <= String.length p -> s = p).
Proof.
  revert p. induction s as [|c s IH]; intros [|a p]; simpl; try done.
  - intros _. split; [lia|]. intros Hlen. lia.
  - destruct (Ascii.ascii_dec a c) as [->|]; [|done].
    intros Hp. destruct (IH p Hp) as [Hle Heq]. split; [lia|].
    intros Hlen. f_equal. apply Heq. lia.
Qed.

(** The build id is empty only for the empty tag and for the bare
    prefix. *)
Lemma delete_first_empty (pattern s : string) :
  delete_first pattern s = EmptyString <-> s = EmptyString \/ s = pattern.
Proof.
  split.
  - rewrite delete_first_unfold.
    destruct (String.prefix pattern s) eqn:Hp.
    + intros Hsub. right. apply prefix_length in Hp as [Hle Heq]. apply Heq.
      pose proof (substring_to_end_length (String.length pattern) s) as Hlen.
      rewrite Hsub in Hlen. simpl in Hlen. lia.
    + destruct s; [by left | discriminate].
  - intros [->| ->].
    + rewrite delete_first_unfold. destruct pattern; reflexivity.
    + rewrite delete_first_unfold.
      assert (String.prefix pattern pattern = true) as ->.
      { apply String.prefix_correct.
        induction pattern as [|c p IH]; simpl; [reflexivity | by rewrite IH]. }
      rewrite Nat.sub_diag. clear.
      induction pattern as [|c p IH]; [reflexivity | exact IH].
Qed.

Example delete_first_only_first :
  delete_first "dockerizalo-" "dockerizalo-dockerizalo-7" = "dockerizalo-7"
  /\ delete_first "dockerizalo-" "x-dockerizalo-7" = "x-7"
  /\ delete_first "dockerizalo-" "nginx:latest" = "nginx:latest".
Proof. repeat split. Qed.

Lemma is_string_ne (literal : string) (x : Js.value) :
  x <> Js.Str literal -> is_string literal x = false.
Proof.
  destruct x; simpl; try reflexivity.
  intros Hne. apply bool_decide_eq_false. congruence.
Qed.

Lemma is_string_eq (literal : string) : is_string literal (Js.Str literal) = true.
Proof. simpl. by apply bool_decide_eq_true. Qed.

(** Unfolds one handler down to the calls of its collaborators. *)
Ltac unfold_handler :=
  unfold startApp, stopApp, listenApp, listApps, listenAppLogs,
    res_status_json, open_event_stream, bind, call, emit, ret, throw,
    try_catch, detach, result, world, trace.

Lemma truthy_string_Some (o : option string) (s : string) :
  truthy_string o = Some s -> o = Some s.
Proof. destruct o as [s'|]; simpl; [|done]. by destruct (decide (s' = "")). Qed.

Lemma truthy_string_None (s : string) :
  truthy_string (Some s) = None -> s = EmptyString.
Proof. simpl. by destruct (decide (s = "")). Qed.

Lemma truthy_value_Some (o : option Js.value) (v : Js.value) :
  truthy_value o = Some v -> o = Some v.
Proof. destruct o as [v'|]; simpl; [|done]. by destruct (Js.truthy v'). Qed.

(** Finds an event in an explicit trace. *)
Ltac pick_event := solve [repeat first [left; reflexivity | right]].

Section Conflicts.
Context {W : Type} (C : Collaborators W).
Variables (req : Request) (app : App) (status : Js.value) (w w1 w2 w3 : W).

Hypothesis authenticated : authenticateUser C req w = (Returned tt, w1).
Hypothesis found :
  app_findUnique C (params_appId req) w1 = (Returned (Some app), w2).
Hypothesis queried :
  getContainerStatus C (container_name (params_appId req)) w2
  = (Returned status, w3).

(** The three calls every single-app handler starts with. *)
Let prologue : list event :=
  [AuthenticateUser req (Returned tt);
   AppFindUnique (params_appId req) (Returned (Some app));
   GetContainerStatus (container_name (params_appId req)) (Returned status)].

(** C4: for an existing app, Start is rejected with the 400 response when
    the container status is [running], and the status query is its only
    call to the runtime; Stop is rejected with the 400 response when the
    status is neither [running] nor [restarting] (so also when it is
    [exited]), and no stop of the stack is issued. *)
Theorem conflict_without_runtime_call :
  (status = Js.Str "running" ->
   startApp C req w
   = (Returned tt, w3,
      prologue ++ [ResStatusJson 400 (message "The app is already running")])
   /\ List.filter is_runtime_call (trace (startApp C req w))
      = [GetContainerStatus (container_name (params_appId req)) (Returned status)])
  /\ (status <> Js.Str "running" -> status <> Js.Str "restarting" ->
      stopApp C req w
      = (Returned tt, w3,
         prologue ++ [ResStatusJson 400 (message "The app is not running")])
      /\ List.filter is_runtime_call (trace (stopApp C req w))
         = [GetContainerStatus (container_name (params_appId req)) (Returned status)]
      /\ List.filter is_stop_stack (trace (stopApp C req w)) = []).
Proof.
  split.
  - intros ->.
    assert (startApp C req w
            = (Returned tt, w3,
               prologue ++ [ResStatusJson 400 (message "The app is already running")]))
      as Hrun.
    { unfold_handler. rewrite authenticated, found, queried. reflexivity. }
    split; [exact Hrun|]. rewrite Hrun. reflexivity.
  - intros Hrunning Hrestarting.
    assert (stopApp C req w
            = (Returned tt, w3,
               prologue ++ [ResStatusJson 400 (message "The app is not running")]))
      as Hrun.
    { unfold_handler. rewrite authenticated, found, queried.
      rewrite (is_string_ne _ _ Hrunning), (is_string_ne _ _ Hrestarting).
      reflexivity. }
    split; [exact Hrun|]. rewrite Hrun. split; reflexivity.
Qed.

(** C9: for an existing app whose container is neither [running] nor
    [restarting], the log stream is refused with the 400 response before
    any header is sent, any listener is registered or any log is read. *)
Theorem logs_refused_unless_running (fuel : nat) :
  status <> Js.Str "running" -> status <> Js.Str "restarting" ->
  listenAppLogs C fuel req w
  = (Returned tt, w3,
     prologue ++ [ResStatusJson 400 (message "The app is not running")])
  /\ List.filter is_stream_action (trace (listenAppLogs C fuel req w)) = [].
Proof.
  intros Hrunning Hrestarting.
  assert (listenAppLogs C fuel req w
          = (Returned tt, w3,
             prologue ++ [ResStatusJson 400 (message "The app is not running")]))
    as Hrun.
  { unfold_handler. rewrite authenticated, found, queried.
    rewrite (is_string_ne _ _ Hrunning), (is_string_ne _ _ Hrestarting).
    reflexivity. }
  split; [exact Hrun|]. rewrite Hrun. reflexivity.
Qed.

End Conflicts.

Section Stop.
Context {W : Type} (C : Collaborators W).
Variables (req : Request) (app : App) (directory : string)
  (w w1 w2 w3 w4 w5 w6 : W).

Hypothesis authenticated : authenticateUser C req w = (Returned tt, w1).
Hypothesis found :
  app_findUnique C (params_appId req) w1 = (Returned (Some app), w2).
Hypothesis restarting :
  getContainerStatus C (container_name (params_appId req)) w2
  = (Returned (Js.Str "restarting"), w3).
Hypothesis ensured : getOrCreateAppDirectory C app w3 = (Returned directory, w4).
Hypothesis stopped : stopComposeStack C directory w4 = (Returned tt, w5).
Hypothesis published : sendAppEvent C (app_id app) w5 = (Returned tt, w6).

(** C5: for an existing app whose container is [restarting], Stop
    answers with the success response after exactly one stop of the stack,
    on the directory that [getOrCreateAppDirectory] gave for the app, and
    exactly one lifecycle event for the app (the collaborators completing
    normally). *)
Theorem stop_restarting_app :
  stopApp C req w
  = (Returned tt, w6,
     [AuthenticateUser req (Returned tt);
      AppFindUnique (params_appId req) (Returned (Some app));
      GetContainerStatus (container_name (params_appId req))
        (Returned (Js.Str "restarting"));
      GetOrCreateAppDirectory app (Returned directory);
      StopComposeStack directory (Returned tt);
      SendAppEvent (app_id app) (Returned tt);
      ResStatusJson 200 (message "App has stopped")])
  /\ List.filter is_stop_stack (trace (stopApp C req w))
     = [StopComposeStack directory (Returned tt)]
  /\ List.filter is_send_app_event (trace (stopApp C req w))
     = [SendAppEvent (app_id app) (Returned tt)].
Proof.
  split_and!; unfold_handler;
    rewrite authenticated, found, restarting; simpl;
    rewrite ensured, stopped, published; reflexivity.
Qed.

End Stop.

(** Case analysis on a run of [startApp]: the goal, a property of the
    run, is set aside while every answer of a collaborator and every
    branch of the handler is split, then stated on each explicit run. *)
Ltac start_cases C req w :=
  match goal with
  | |- ?G =>
      let P := eval pattern (startApp C req w) in G in
      match P with
      | ?Q _ =>
          let Claim := fresh "Claim" in
          set (Claim := Q); change (Claim (startApp C req w));
          unfold_handler; repeat case_match; simplify_eq;
          subst Claim; cbv beta; simpl
      end
  end;
  repeat match goal with
    | H : truthy_string ?o = Some _ |- _ =>
        pose proof (truthy_string_Some _ _ H); subst o
    | H : truthy_value ?o = Some _ |- _ =>
        pose proof (truthy_value_Some _ _ H); subst o
    | H : truthy_string _ = _ |- _ => rewrite H; clear H
    | H : truthy_value _ = _ |- _ => rewrite H; clear H
    | H : decide _ = _ |- _ => rewrite H; clear H
    | H : negb ?b = _ |- _ => destruct b; simplify_eq/=
    end.

(** Splits a membership in an explicit trace into its cases. *)
Ltac split_event H := repeat destruct H as [H|H]; simplify_eq.

Section Start.
Context {W : Type} (C : Collaborators W).

(** C1, the part that holds: Start never starts the stack after a
    failed reuse check.  Whenever one of the checks fails in a run of Start (no
    directory, no configuration, no image reference, empty build id, no
    build record, image not in the runtime), the run ends with the one
    call to the build-creation collaborator and contains no
    [startComposeStack]; and a run that contains [startComposeStack] has
    read a configuration from the directory it starts, has taken an image
    from it, and the runtime has answered that this image is available. *)
Theorem start_only_if_reusable (req : Request) (w : W) :
  let tr := trace (startApp C req w) in
  (existsb reuse_check_failed tr = true ->
   List.filter is_start_stack tr = []
   /\ exists r, last tr = Some (CreateBuild req r)
                /\ List.filter is_create_build tr = [CreateBuild req r])
  /\ (forall directory r,
         In (StartComposeStack directory r) tr ->
         existsb reuse_check_failed tr = false
         /\ List.filter is_create_build tr = []
         /\ exists compose image,
             In (GetComposeConfiguration directory (Returned (Some compose))) tr
             /\ In (GetComposeImage compose (Returned (Some image))) tr
             /\ In (IsImageAvailable image (Returned true)) tr).
Proof.
  intros tr. subst tr. start_cases C req w.
  all: simpl; split;
    [ intros Hfailed;
      first [ discriminate Hfailed
            | split; [reflexivity | eexists; split; reflexivity] ]
    | intros directory r Hin;
      first [ exfalso; clear -Hin; split_event Hin; done
            | split_event Hin;
              split_and!; [reflexivity .. | do 2 eexists; split_and!; pick_event] ] ].
Qed.


(** C8, the part that holds: when [startComposeStack] throws during Start, the stack was
    started once and is not started again, no lifecycle event is sent,
    and: an error object with an [err] field is answered with the 500
    response carrying that field while the handler returns normally; an
    error object without the field is rethrown as it is; a thrown value
    that is not an object makes the [in] test itself throw, so the handler
    ends in an exception as well. *)
Theorem start_stack_failure (req : Request) (w : W) (directory : string) (e : exn) :
  let run := startApp C req w in
  In (StartComposeStack directory (Thrown e)) (trace run) ->
  List.filter is_start_stack (trace run)
  = [StartComposeStack directory (Thrown e)]
  /\ List.filter is_send_app_event (trace run) = []
  /\ match e with
     | ErrorObject (Some err) _ =>
         result run = Returned tt
         /\ last (trace run)
            = Some (ResStatusJson 500
                      (message ("Error when running project: " +:+ err)))
     | ErrorObject None _ | RetryError _ =>
         result run = Thrown e
         /\ List.filter (fun ev => match ev with ResStatusJson _ _ => true | _ => false end)
              (trace run) = []
     | Primitive _ =>
         (exists type_error, result run = Thrown type_error)
         /\ List.filter (fun ev => match ev with ResStatusJson _ _ => true | _ => false end)
              (trace run) = []
     end.
Proof.
  intros run. subst run. revert directory e. start_cases C req w.
  all: intros dir thrown Hin; simpl in Hin; split_event Hin; try done.
  all: repeat match goal with
         | H : in_err ?x = _ |- _ => destruct x as [[?|] ?| |]; simplify_eq/=
         end.
  all: split_and!; eauto.
Qed.

(** C10: the build id is the image tag with the first occurrence of
    [dockerizalo-] deleted.  A tag without that substring is its own
    build id; otherwise the text before and the text after the first
    occurrence are kept; the build id is empty only for the empty tag and
    for the bare prefix.  In a run of Start, once the configuration has
    given a non-empty image tag, the next step is the build-creation
    collaborator exactly when the build id is empty, and otherwise the
    store lookup of the build under that build id, whatever the tag. *)
Theorem build_id_is_tag_without_first_prefix (req : Request) (w : W) :
  let tr := trace (startApp C req w) in
  let build_id_of := delete_first "dockerizalo-" in
  (forall image,
      String.index 0 "dockerizalo-" image = None -> build_id_of image = image)
  /\ (forall image n,
         String.index 0 "dockerizalo-" image = Some n ->
         build_id_of image
         = String.substring 0 n image
           +:+ String.substring (n + 12) (String.length image - (n + 12)) image)
  /\ (forall image,
         build_id_of image = EmptyString
         <-> image = EmptyString \/ image = "dockerizalo-")
  /\ (forall compose image,
         In (GetComposeImage compose (Returned (Some image))) tr ->
         image <> EmptyString ->
         (build_id_of image = EmptyString ->
          exists r, event_after is_get_compose_image tr
                    = Some (CreateBuild req r))
         /\ (build_id_of image <> EmptyString ->
             exists r, event_after is_get_compose_image tr
                       = Some (BuildFindUnique (build_id_of image) r)))
  /\ (forall id r,
         In (BuildFindUnique id r) tr ->
         id <> EmptyString
         /\ exists compose image,
             In (GetComposeImage compose (Returned (Some image))) tr
             /\ id = build_id_of image).
Proof.
  intros tr build_id_of. subst tr build_id_of.
  split; [intros image Hnone; by rewrite delete_first_index, Hnone|].
  split; [intros image n Hsome; by rewrite delete_first_index, Hsome|].
  split; [intros image; apply delete_first_empty|].
  start_cases C req w.
  all: split;
    [ intros cfg tag Hin Hne; split_event Hin; try done;
      split; intros Hid;
      first [ done
            | eexists; reflexivity
            | match goal with
              | H : truthy_string (Some _) = None |- _ =>
                  apply truthy_string_None in H; done
              end ]
    | intros id r Hin; split_event Hin; try done;
      split_and?;
      first [ assumption | do 2 eexists; split; [pick_event | reflexivity] ] ].
Qed.

End Start.

Section Logs.
Context {W : Type} (C : Collaborators W).
Variable req : Request.

Let name := container_name (params_appId req).

Lemma backoff_capped (minTimeout factor maxTimeout : Z) (attempt : nat) :
  (backoff minTimeout factor maxTimeout attempt <= maxTimeout)%Z.
Proof. unfold backoff. apply Z.le_min_r. Qed.

(** One run of the function handed to the retry loop. *)
Lemma tail_logs_run (w : W) :
  tail_logs C req w =
  let '(chunks, r, w1) := getContainerLogs C name w in
  match r with
  | Returned _ =>
      (Returned tt, w1, map ResWrite chunks ++ [GetContainerLogs name (Returned tt)])
  | Thrown e =>
      if signal_aborted C w1 then
        (Returned tt, w1,
         map ResWrite chunks
           ++ [GetContainerLogs name (Thrown e); SignalAborted true])
      else
        (Thrown (RetryError e), w1,
         map ResWrite chunks
           ++ [GetContainerLogs name (Thrown e); SignalAborted false])
  end.
Proof.
  unfold tail_logs, stream_logs, read_aborted, try_catch, bind, ret, throw.
  subst name. destruct (getContainerLogs C _ w) as [[chunks [[]|e]] w1]; simpl.
  - reflexivity.
  - destruct (signal_aborted C w1); simpl; by rewrite <- app_assoc.
Qed.

(** A failure while the signal has not fired: the delay, then the rest
    of the loop with one attempt more. *)
Lemma retry_scheduled (fuel attempt : nat) (w w1 : W)
    (chunks : list Js.value) (e : exn) :
  getContainerLogs C name w = (chunks, Thrown e, w1) ->
  signal_aborted C w1 = false ->
  let delay := backoff (retry_minTimeout C) (retry_factor C) 1000 attempt in
  let rest := promiseRetry C fuel (tail_logs C req) 1000 (S attempt)
                (timer C delay w1) in
  promiseRetry C (S fuel) (tail_logs C req) 1000 attempt w
  = (result rest, world rest,
     map ResWrite chunks
       ++ [GetContainerLogs name (Thrown e); SignalAborted false; SetTimeout delay]
       ++ trace rest).
Proof.
  intros Hlogs Hsignal delay rest. subst rest.
  cbn [promiseRetry]. unfold try_catch at 1. unfold bind at 1.
  rewrite tail_logs_run, Hlogs, Hsignal.
  unfold bind, set_timeout, result, world, trace. fold delay.
  destruct (promiseRetry C fuel (tail_logs C req) 1000 (S attempt) (timer C delay w1))
    as [[r w2] t]. simpl.
  by rewrite <- !app_assoc.
Qed.

(** A failure after the signal has fired: the loop settles. *)
Lemma error_swallowed (fuel attempt : nat) (w w1 : W)
    (chunks : list Js.value) (e : exn) :
  getContainerLogs C name w = (chunks, Thrown e, w1) ->
  signal_aborted C w1 = true ->
  promiseRetry C (S fuel) (tail_logs C req) 1000 attempt w
  = (Returned (Some tt), w1,
     map ResWrite chunks ++ [GetContainerLogs name (Thrown e); SignalAborted true]).
Proof.
  intros Hlogs Hsignal.
  cbn [promiseRetry]. unfold try_catch at 1. unfold bind at 1.
  rewrite tail_logs_run, Hlogs, Hsignal. unfold ret. simpl.
  by rewrite app_nil_r.
Qed.

(** A success: the loop settles with the stream delivered. *)
Lemma stream_delivered (fuel attempt : nat) (w w1 : W) (chunks : list Js.value) :
  getContainerLogs C name w = (chunks, Returned tt, w1) ->
  promiseRetry C (S fuel) (tail_logs C req) 1000 attempt w
  = (Returned (Some tt), w1,
     map ResWrite chunks ++ [GetContainerLogs name (Returned tt)]).
Proof.
  intros Hlogs.
  cbn [promiseRetry]. unfold try_catch at 1. unfold bind at 1.
  rewrite tail_logs_run, Hlogs. unfold ret. simpl.
  by rewrite app_nil_r.
Qed.

Lemma filter_writes (p : event -> bool) (chunks : list Js.value) :
  (forall v, p (ResWrite v) = false) ->
  List.filter p (map ResWrite chunks) = [].
Proof.
  intros Hp. induction chunks as [|v chunks IH]; simpl; [reflexivity|].
  by rewrite Hp.
Qed.

Lemma forallb_writes (p : event -> bool) (chunks : list Js.value) :
  (forall v, p (ResWrite v) = true) ->
  forallb p (map ResWrite chunks) = true.
Proof.
  intros Hp. induction chunks as [|v chunks IH]; simpl; [reflexivity|].
  by rewrite Hp.
Qed.

(** [n] failures, then a success: the loop settles with the stream
    delivered after [n] delays and [n + 1] calls of the adapter. *)
Lemma settles_after_failures (n : nat) :
  forall (attempt fuel : nat) (w : W),
    fails_then_succeeds C n attempt req w -> n < fuel ->
    let run := promiseRetry C fuel (tail_logs C req) 1000 attempt w in
    result run = Returned (Some tt)
    /\ length (List.filter is_set_timeout (trace run)) = n
    /\ length (List.filter is_get_container_logs (trace run)) = S n
    /\ forallb (timeout_within 1000) (trace run) = true
    /\ exists before ws chunks,
        getContainerLogs C name ws = (chunks, Returned tt, world run)
        /\ trace run
           = before ++ map ResWrite chunks ++ [GetContainerLogs name (Returned tt)].
Proof.
  induction n as [|n IH]; intros attempt [|fuel] w Hscript Hfuel; try lia.
  - destruct Hscript as (chunks & w1 & Hlogs). cbv zeta.
    rewrite (stream_delivered fuel attempt w w1 chunks Hlogs).
    unfold result, world, trace. simpl.
    rewrite !List.filter_app, !filter_writes, forallb_app, forallb_writes by done.
    split_and!; try reflexivity.
    exists [], w, chunks. split; [exact Hlogs | reflexivity].
  - destruct Hscript as (chunks & e & w1 & Hlogs & Hsignal & Hrest). cbv zeta.
    rewrite (retry_scheduled fuel attempt w w1 chunks e Hlogs Hsignal). cbv zeta.
    destruct (IH (S attempt) fuel _ Hrest ltac:(lia))
      as (Hres & Htimeouts & Hcalls & Hcap & before & ws & final & Hfinal & Htrace).
    unfold result, world, trace in *. simpl.
    rewrite !List.filter_app, !length_app, !filter_writes, !forallb_app,
      forallb_writes by done.
    simpl. rewrite Htimeouts, Hcalls, Hcap.
    pose proof (backoff_capped (retry_minTimeout C) (retry_factor C) 1000 attempt) as Hle.
    apply Z.leb_le in Hle. rewrite Hle.
    split_and!; try done.
    exists (map ResWrite chunks
              ++ [GetContainerLogs name (Thrown e); SignalAborted false;
                  SetTimeout (backoff (retry_minTimeout C) (retry_factor C) 1000 attempt)]
              ++ before), ws, final.
    split; [exact Hfinal|].
    rewrite Htrace. simpl. rewrite <- !app_assoc. reflexivity.
Qed.

(** C6: the log stream is tailed in a retry loop without a bound on the
    number of attempts.  At any attempt number, (1) a failure of the
    adapter while the cancellation signal has not fired schedules one
    retry, after a delay of at most the cap of 1000, and the loop goes on;
    (2) when the adapter fails [n] times and then succeeds, a loop given
    more than [n] runs settles successfully after exactly [n] delays, all
    within the cap, and [n + 1] calls of the adapter, the chunks of the
    successful call being the last ones written to the subscriber;
    (3) a failure after the signal has fired settles the loop: the error
    is not reported and nothing is scheduled. *)
Theorem log_stream_retried_until_cancelled :
  (forall fuel attempt w w1 chunks e,
      getContainerLogs C name w = (chunks, Thrown e, w1) ->
      signal_aborted C w1 = false ->
      exists delay,
        (delay <= 1000)%Z
        /\ let rest := promiseRetry C fuel (tail_logs C req) 1000 (S attempt)
                         (timer C delay w1) in
           promiseRetry C (S fuel) (tail_logs C req) 1000 attempt w
           = (result rest, world rest,
              map ResWrite chunks
                ++ [GetContainerLogs name (Thrown e); SignalAborted false;
                    SetTimeout delay]
                ++ trace rest))
  /\ (forall n fuel w,
         fails_then_succeeds C n 0 req w -> n < fuel ->
         let run := supervise_logs C fuel req w in
         result run = Returned (Some tt)
         /\ length (List.filter is_set_timeout (trace run)) = n
         /\ length (List.filter is_get_container_logs (trace run)) = S n
         /\ forallb (timeout_within 1000) (trace run) = true
         /\ exists before ws chunks,
             getContainerLogs C name ws = (chunks, Returned tt, world run)
             /\ trace run
                = before ++ map ResWrite chunks
                    ++ [GetContainerLogs name (Returned tt)])
  /\ (forall fuel attempt w w1 chunks e,
         getContainerLogs C name w = (chunks, Thrown e, w1) ->
         signal_aborted C w1 = true ->
         promiseRetry C (S fuel) (tail_logs C req) 1000 attempt w
         = (Returned (Some tt), w1,
            map ResWrite chunks
              ++ [GetContainerLogs name (Thrown e); SignalAborted true])).
Proof.
  split_and!.
  - intros fuel attempt w w1 chunks e Hlogs Hsignal.
    exists (backoff (retry_minTimeout C) (retry_factor C) 1000 attempt).
    split; [apply backoff_capped|].
    exact (retry_scheduled fuel attempt w w1 chunks e Hlogs Hsignal).
  - intros n fuel w Hscript Hfuel. unfold supervise_logs.
    exact (settles_after_failures n 0 fuel w Hscript Hfuel).
  - exact error_swallowed.
Qed.


End Logs.

Section Status.
Context {W : Type} (C : Collaborators W).



End Status.

(** *** The claims on the scripted world *)

Section Witnesses.
Import Script.

Let C := Script.collaborators.

(** The listing of an app whose container the runtime reports under the
    plain name [dockerizalo-a1]: the single-app handlers query exactly
    that name, the listing does not find it and displays [exited]. *)
Lemma listing_misses_plain_name :
  container_name (app_id web) = "dockerizalo-a1"
  /\ containers plain_name !! container_name (app_id web)
     = Some (Js.Obj [("status", Js.Str "running")])
  /\ trace (listApps C start_a1 plain_name)
     = [AuthenticateUser start_a1 (Returned tt);
        AppFindMany (Returned [web]);
        GetAllContainersStatus (Returned (containers plain_name));
        ResStatusJson 200 (Js.Arr [app_with_status web (Js.Str "exited")])].
Proof. split_and!; vm_compute; reflexivity. Defined.

(** Start on a running app and Stop on an exited one. *)
Lemma conflict_without_runtime_call_witness :
  startApp C start_a1 (ready (Some "running"))
  = (Returned tt, ready (Some "running"),
     [AuthenticateUser start_a1 (Returned tt);
      AppFindUnique "a1" (Returned (Some web));
      GetContainerStatus "dockerizalo-a1" (Returned (Js.Str "running"));
      ResStatusJson 400 (message "The app is already running")])
  /\ List.filter is_stop_stack (trace (stopApp C start_a1 (ready (Some "exited")))) = [].
Proof.
  split.
  - exact (proj1 (proj1 (conflict_without_runtime_call C start_a1 web
                           (Js.Str "running") (ready (Some "running")) _ _ _
                           eq_refl eq_refl eq_refl) eq_refl)).
  - exact (proj2 (proj2 (proj2 (conflict_without_runtime_call C start_a1 web
                                  (Js.Str "exited") (ready (Some "exited")) _ _ _
                                  eq_refl eq_refl eq_refl)
                           ltac:(discriminate) ltac:(discriminate)))).
Defined.

(** The log stream of an exited app. *)
Lemma logs_refused_unless_running_witness :
  List.filter is_stream_action
    (trace (listenAppLogs C 5 start_a1 (ready (Some "exited")))) = [].
Proof.
  exact (proj2 (logs_refused_unless_running C start_a1 web (Js.Str "exited")
                  (ready (Some "exited")) _ _ _ eq_refl eq_refl eq_refl 5
                  ltac:(discriminate) ltac:(discriminate))).
Defined.

(** Stop on a restarting app. *)
Lemma stop_restarting_app_witness :
  List.filter is_stop_stack (trace (stopApp C start_a1 (ready (Some "restarting"))))
  = [StopComposeStack "/apps/a1" (Returned tt)]
  /\ List.filter is_send_app_event
       (trace (stopApp C start_a1 (ready (Some "restarting"))))
     = [SendAppEvent "a1" (Returned tt)].
Proof.
  exact (proj2 (stop_restarting_app C start_a1 web "/apps/a1"
                  (ready (Some "restarting")) _ _ _ _ _ _
                  eq_refl eq_refl eq_refl eq_refl eq_refl eq_refl)).
Defined.

(** Start on an app without a directory. *)
Lemma start_only_if_reusable_witness :
  List.filter is_start_stack (trace (startApp C start_a1 unbuilt)) = []
  /\ exists r,
      last (trace (startApp C start_a1 unbuilt)) = Some (CreateBuild start_a1 r)
      /\ List.filter is_create_build (trace (startApp C start_a1 unbuilt))
         = [CreateBuild start_a1 r].
Proof.
  exact (proj1 (start_only_if_reusable C start_a1 unbuilt) eq_refl).
Defined.

(** Start when the stack fails with a runtime error. *)
Lemma start_stack_failure_witness :
  result (startApp C start_a1 failing_start) = Returned tt
  /\ last (trace (startApp C start_a1 failing_start))
     = Some (ResStatusJson 500
               (message ("Error when running project: " +:+ "no such image"))).
Proof.
  exact (proj2 (proj2 (start_stack_failure C start_a1 failing_start "/apps/a1"
                         (ErrorObject (Some "no such image") "compose up failed")
                         ltac:(vm_compute; tauto)))).
Defined.

(** Start when the configuration names the bare prefix. *)
Lemma build_id_is_tag_without_first_prefix_witness :
  exists r, event_after is_get_compose_image (trace (startApp C start_a1 bare_prefix))
            = Some (CreateBuild start_a1 r).
Proof.
  refine (proj1 (proj1 (proj2 (proj2 (proj2
            (build_id_is_tag_without_first_prefix C start_a1 bare_prefix))))
            (Js.Obj [("image", Js.Str "dockerizalo-")]) "dockerizalo-" _ _) eq_refl).
  - vm_compute. tauto.
  - discriminate.
Defined.

(** Two failures of the log tailing, then the stream. *)
Lemma log_stream_retried_until_cancelled_witness :
  result (supervise_logs C 3 start_a1 flaky) = Returned (Some tt)
  /\ length (List.filter is_set_timeout (trace (supervise_logs C 3 start_a1 flaky))) = 2
  /\ length (List.filter is_get_container_logs
               (trace (supervise_logs C 3 start_a1 flaky))) = 3
  /\ forallb (timeout_within 1000) (trace (supervise_logs C 3 start_a1 flaky)) = true.
Proof.
  assert (fails_then_succeeds C 2 0 start_a1 flaky) as Hscript.
  { do 3 eexists. split; [reflexivity|]. split; [reflexivity|].
    do 3 eexists. split; [reflexivity|]. split; [reflexivity|].
    do 2 eexists. reflexivity. }
  destruct (proj1 (proj2 (log_stream_retried_until_cancelled C start_a1))
              2 3 flaky Hscript ltac:(lia))
    as (Hres & Htimeouts & Hcalls & Hcap & _).
  exact (conj Hres (conj Htimeouts (conj Hcalls Hcap))).
Defined.

(** The connection closes during the first failure: one call, no delay. *)
Example hung_up_stream_settles :
  supervise_logs C 5 start_a1 hung_up
  = (Returned (Some tt), Run.world (supervise_logs C 5 start_a1 hung_up),
     [GetContainerLogs "dockerizalo-a1" (Thrown (ErrorObject None "socket hang up"));
      SignalAborted true]).
Proof. vm_compute. reflexivity. Qed.

(** The same failures with the connection open: two delays of 1000. *)
Example flaky_stream_trace :
  trace (supervise_logs C 5 start_a1 flaky)
  = [GetContainerLogs "dockerizalo-a1" (Thrown (ErrorObject None "socket hang up"));
     SignalAborted false; SetTimeout 1000;
     GetContainerLogs "dockerizalo-a1" (Thrown (ErrorObject None "socket hang up"));
     SignalAborted false; SetTimeout 1000;
     ResWrite (Js.Str "line");
     GetContainerLogs "dockerizalo-a1" (Returned tt)].
Proof. vm_compute. reflexivity. Qed.

End Witnesses.

End AppsFacts.

(** ** More on the compose generator *)

Module DockerMore.
Import Js Docker JsFacts DockerFacts Apps AppsFacts.

Lemma substring_all (s : string) : String.substring 0 (String.length s) s = s.
Proof. induction s as [|c s IH]; simpl; [reflexivity | by rewrite IH]. Qed.

Lemma prefix_append (pattern s : string) :
  String.prefix pattern (pattern +:+ s) = true.
Proof.
  induction pattern as [|c p IH]; simpl; [by destruct s|].
  destruct (Ascii.ascii_dec c c); [exact IH | done].
Qed.

Lemma delete_first_prefixed (pattern s : string) :
  delete_first pattern (pattern +:+ s) = s.
Proof.
  rewrite delete_first_unfold, prefix_append.
  induction pattern as [|c p IH]; simpl.
  - rewrite Nat.sub_0_r. apply substring_all.
  - exact IH.
Qed.

(** X1: the fixed part of the service and the way back from its image
    tag.  Whatever the lists, the [app] service names the image
    [dockerizalo-] followed by the id of the build, restarts unless
    stopped, and names its container as the single-app handlers name the
    container of the build's app; deleting the first [dockerizalo-] from
    the image tag, as Start does, gives the id of the build back. *)
Theorem image_tag_gives_build_id_back
    (build : Build) (ports : list PortMapping) (volumes : list BindMount)
    (variables : list EnvironmentVariable) (networks : list Network)
    (labels : list Label) :
  let doc := compose build ports volumes variables networks labels in
  service_section "restart" doc = Some (Str "unless-stopped")
  /\ service_section "container_name" doc
     = Some (Str (container_name (build_appId build)))
  /\ exists tag,
      service_section "image" doc = Some (Str tag)
      /\ delete_first "dockerizalo-" tag = build_id build.
Proof.
  intros doc. subst doc.
  split_and!.
  - destruct ports, variables, labels, volumes, networks; reflexivity.
  - destruct ports, variables, labels, volumes, networks; reflexivity.
  - exists ("dockerizalo-" +:+ build_id build). split.
    + destruct ports, variables, labels, volumes, networks; reflexivity.
    + apply delete_first_prefixed.
Qed.

Lemma prefix_split (pattern s : string) :
  String.prefix pattern s = true ->
  pattern
    +:+ String.substring (String.length pattern)
          (String.length s - String.length pattern) s
  = s.
Proof.
  revert pattern. induction s as [|c s IH]; intros [|a p]; simpl; try done.
  - intros _. change (String c (String.substring 0 (String.length s) s) = String c s).
    f_equal. apply substring_all.
  - destruct (Ascii.ascii_dec a c) as [->|]; [|done].
    intros Hp. change (String c (p +:+ String.substring (String.length p)
                                   (String.length s - String.length p) s)
                       = String c s).
    f_equal. by apply IH.
Qed.

(** X17: the tag that is checked and the tag that is started.  Start
    tests the availability of the image tag found on disk, looks the build
    up under the id derived from it, and regenerates the configuration
    from that build.  Provided the store returns the build it was asked for
    (its id is the id looked up), the regenerated service names the
    tested tag again exactly when the tag found begins with
    [dockerizalo-]; for any other tag the regenerated tag is a different
    one, which was not tested. *)
Theorem regenerated_tag_is_tested_tag_iff_prefixed
    (image : string) (build : Build) (ports : list PortMapping)
    (volumes : list BindMount) (variables : list EnvironmentVariable)
    (networks : list Network) (labels : list Label) :
  build_id build = delete_first "dockerizalo-" image ->
  (service_section "image"
     (compose build ports volumes variables networks labels)
   = Some (Str image)
   <-> String.prefix "dockerizalo-" image = true).
Proof.
  intros Hid.
  assert (service_section "image"
            (compose build ports volumes variables networks labels)
          = Some (Str ("dockerizalo-" +:+ build_id build))) as ->
    by (destruct ports, variables, labels, volumes, networks; reflexivity).
  split.
  - intros [= <-]. apply prefix_append.
  - intros Hprefix. rewrite Hid, delete_first_unfold, Hprefix.
    do 2 f_equal. exact (prefix_split "dockerizalo-" image Hprefix).
Qed.

Lemma regenerated_tag_is_tested_tag_iff_prefixed_witness :
  service_section "image"
    (compose {| build_id := "nginx"; build_appId := "a1" |} [] [] [] [] [])
  = Some (Str "nginx")
  <-> String.prefix "dockerizalo-" "nginx" = true.
Proof.
  exact (regenerated_tag_is_tested_tag_iff_prefixed "nginx"
           {| build_id := "nginx"; build_appId := "a1" |} [] [] [] [] [] eq_refl).
Defined.

Lemma get_is_Some {V} (k : string) (o : props V) :
  is_Some (get k o) <-> k ∈ keys o.
Proof.
  unfold keys. induction o as [|[k0 v0] o IH]; csimpl.
  - split; [intros [? ?]; done | intros Hin; by apply elem_of_nil in Hin].
  - destruct (decide (k0 = k)) as [->|Hne].
    + split; [intros _; left | intros _; eauto].
    + rewrite IH, elem_of_cons. split; [by right | intros [?|?]; congruence].
Qed.

Lemma last_write_is_Some {V} (k : string) (entries : list (string * V)) :
  is_Some (last_write k entries) <-> k ∈ keys entries.
Proof.
  unfold keys. induction entries as [|[k0 v0] entries IH]; csimpl.
  - split; [intros [? ?]; done | intros Hin; by apply elem_of_nil in Hin].
  - rewrite elem_of_cons, <- IH.
    destruct (last_write k entries) as [v|].
    + split; [intros _; right; eauto | intros _; eauto].
    + destruct (decide (k0 = k)) as [->|Hne].
      * split; [intros _; by left | intros _; eauto].
      * split; [intros [? ?]; done | intros [?|[? ?]]; [congruence | done]].
Qed.

Lemma NoDup_keys_spread {V} (target src : props V) :
  NoDup (keys target) -> NoDup (keys (spread target src)).
Proof.
  unfold spread. revert target.
  induction src as [|[k v] src IH]; intros target Hnd; simpl; [exact Hnd|].
  apply IH. by apply NoDup_keys_set.
Qed.

(** X2: every network of the service is declared.  The [networks] list
    of the service keeps one entry per network record, in order; the
    top-level mapping has one key per distinct name, each network of the
    list has its declaration there, under its own name, and nothing else
    is declared. *)
Theorem service_networks_are_declared (networks : list Network) :
  NoDup (keys (networks_map networks))
  /\ (forall network,
         network ∈ networks ->
         exists external,
           get (net_name network) (networks_map networks)
           = Some (Obj [("name", Str (net_name network));
                        ("external", Bool external)]))
  /\ (forall name,
         name ∈ keys (networks_map networks) -> name ∈ map net_name networks)
  /\ (forall network post,
         (exists pre, networks = pre ++ network :: post) ->
         net_name network ∉ map net_name post ->
         get (net_name network) (networks_map networks)
         = Some (Obj [("name", Str (net_name network));
                      ("external", Bool (net_external network))])).
Proof.
  assert (forall name, is_Some (last_network name networks)
                       <-> name ∈ map net_name networks) as Hdom.
  { intros name. unfold last_network. rewrite last_write_is_Some.
    unfold keys. by rewrite <- list_fmap_compose. }
  split_and!.
  - unfold networks_map, fromEntries. apply NoDup_keys_spread. constructor.
  - intros network Hin.
    destruct (proj2 (Hdom (net_name network))) as [external Hlast].
    { by apply list_elem_of_fmap_2. }
    exists external. by rewrite networks_map_spec, Hlast.
  - intros name Hin. apply Hdom. apply get_is_Some in Hin.
    rewrite networks_map_spec in Hin. by apply fmap_is_Some in Hin.
  - intros network post [pre ->] Hlast.
    rewrite networks_map_spec. unfold last_network. rewrite map_app. simpl.
    rewrite last_write_last; [reflexivity|].
    unfold keys. by rewrite <- list_fmap_compose.
Qed.

Lemma service_networks_are_declared_witness :
  get "front" (networks_map
                 [{| net_name := "front"; net_external := false |};
                  {| net_name := "back"; net_external := true |};
                  {| net_name := "front"; net_external := true |}])
  = Some (Obj [("name", Str "front"); ("external", Bool true)]).
Proof.
  refine (proj2 (proj2 (proj2 (service_networks_are_declared _)))
            {| net_name := "front"; net_external := true |} [] _ _).
  - by exists [{| net_name := "front"; net_external := false |};
               {| net_name := "back"; net_external := true |}].
  - apply not_elem_of_nil.
Defined.

End DockerMore.

(** ** More on the controller *)

Module AppsMore.
Import Run Apps AppsFacts Trace.

Section Loop.
Context {W : Type} (C : Collaborators W).
Variable req : Request.

Let name := container_name (params_appId req).

(** The retry loop only writes chunks, tails logs, reads the signal and
    sets timers. *)
Lemma loop_only_loop_events (fuel : nat) :
  forall (attempt : nat) (w : W),
    forallb is_loop_event
      (trace (promiseRetry C fuel (tail_logs C req) 1000 attempt w)) = true.
Proof.
  induction fuel as [|fuel IH]; intros attempt w; [reflexivity|].
  destruct (getContainerLogs C name w) as [[chunks [[]|e]] w1] eqn:Hlogs.
  - rewrite (stream_delivered C req fuel attempt w w1 chunks Hlogs).
    unfold trace. simpl. by rewrite forallb_app, forallb_writes.
  - destruct (signal_aborted C w1) eqn:Hsignal.
    + rewrite (error_swallowed C req fuel attempt w w1 chunks e Hlogs Hsignal).
      unfold trace. simpl. by rewrite forallb_app, forallb_writes.
    + rewrite (retry_scheduled C req fuel attempt w w1 chunks e Hlogs Hsignal).
      cbv zeta. unfold trace in *. simpl.
      rewrite forallb_app, forallb_writes by done. simpl. apply IH.
Qed.

(** X3: the retry loop of the log stream, whatever the adapter and the
    connection do.  It never rejects; it only writes chunks, tails logs,
    reads the signal and sets timers; every delay is within the cap of
    1000; it sets one timer for each failure handled while the signal had
    not fired; and it is still unsettled after [fuel] runs only if each of
    them failed with the signal not fired. *)
Theorem retry_loop_never_rejects (fuel : nat) :
  forall (attempt : nat) (w : W),
    let run := promiseRetry C fuel (tail_logs C req) 1000 attempt w in
    (exists settled, result run = Returned settled)
    /\ forallb is_loop_event (trace run) = true
    /\ forallb (timeout_within 1000) (trace run) = true
    /\ length (List.filter is_set_timeout (trace run))
       = length (List.filter is_signal_open (trace run))
    /\ length (List.filter is_get_container_logs (trace run)) <= fuel
    /\ (result run = Returned None ->
        length (List.filter is_set_timeout (trace run)) = fuel).
Proof.
  induction fuel as [|fuel IH]; intros attempt w.
  { cbv zeta. unfold result, trace. simpl. split_and!; eauto. }
  cbv zeta.
  destruct (getContainerLogs C name w) as [[chunks [[]|e]] w1] eqn:Hlogs.
  - rewrite (stream_delivered C req fuel attempt w w1 chunks Hlogs).
    unfold result, trace. simpl.
    rewrite ?forallb_app, ?List.filter_app, ?forallb_writes,
      ?filter_writes by done.
    simpl. split_and!; eauto; try lia; try done.
  - destruct (signal_aborted C w1) eqn:Hsignal.
    + rewrite (error_swallowed C req fuel attempt w w1 chunks e Hlogs Hsignal).
      unfold result, trace. simpl.
      rewrite ?forallb_app, ?List.filter_app, ?forallb_writes,
        ?filter_writes by done.
      simpl. split_and!; eauto; try lia; try done.
    + rewrite (retry_scheduled C req fuel attempt w w1 chunks e Hlogs Hsignal).
      cbv zeta.
      specialize (IH (S attempt)
        (timer C (backoff (retry_minTimeout C) (retry_factor C) 1000 attempt) w1)).
      cbv zeta in IH.
      destruct IH as (Hres & Hkind & Hcap & Hcount & Hcalls & Hpending).
      pose proof (backoff_capped (retry_minTimeout C) (retry_factor C) 1000 attempt)
        as Hle.
      apply Z.leb_le in Hle.
      unfold result, trace in *. simpl.
      rewrite ?forallb_app, ?List.filter_app, ?length_app,
        ?forallb_writes, ?filter_writes by done.
      simpl. rewrite ?Hkind, ?Hcap, ?Hle, ?Hcount.
      split_and!; eauto; try lia.
      intros Hnone. rewrite <- Hcount. f_equal. by apply Hpending.
Qed.

End Loop.

Lemma loop_events_answer_nothing (tr : list event) :
  forallb is_loop_event tr = true -> List.filter is_answer tr = [].
Proof.
  induction tr as [|e tr IH]; simpl; [reflexivity|].
  intros [He Htr]%andb_prop. rewrite (IH Htr). by destruct e.
Qed.

(** Settles a statement about an explicit run: memberships of the
    hypotheses are split into their cases, those of the goal are found. *)
Ltac explicit_run :=
  repeat match goal with u : unit |- _ => destruct u end;
  simpl;
  repeat first
    [ progress intros
    | match goal with
      | H : _ \/ _ |- _ => split_event H
      | H : False |- _ => destruct H
      | |- _ /\ _ => split
      end ];
  simplify_eq;
  try done; try congruence; try (simpl; lia);
  repeat match goal with
    | |- exists _, _ => eexists
    | |- _ /\ _ => split
    | |- _ \/ _ => pick_event
    | |- _ = _ => reflexivity
    | |- _ -> _ => intro; try contradiction
    end.

Section Start.
Context {W : Type} (C : Collaborators W).

(** What one case analysis of the runs of Start gives: the answer, the
    saved configuration, the lifecycle event. *)
Lemma start_runs (req : Request) (w : W) :
  let run := startApp C req w in
  answered_once run
  /\ (forall document directory r,
         In (SaveComposeConfiguration document directory r) (trace run) ->
         List.filter is_create_build (trace run) = []
         /\ (exists app image build f,
                In (AppFindUnique (params_appId req) (Returned (Some app)))
                   (trace run)
                /\ In (IsImageAvailable image (Returned true)) (trace run)
                /\ In (BuildFindUnique (delete_first "dockerizalo-" image)
                         (Returned (Some build))) (trace run)
                /\ In (Transaction (app_id app) (Returned f)) (trace run)
                /\ document
                   = Docker.createComposeConfiguration (dump C) build
                       (frag_ports f) (frag_volumes f) (frag_variables f)
                       (frag_networks f) (frag_labels f))
         /\ match r with
            | Returned _ =>
                exists r', event_after is_save_configuration (trace run)
                           = Some (StartComposeStack directory r')
            | Thrown e =>
                result run = Thrown e
                /\ List.filter is_start_stack (trace run) = []
            end)
  /\ (forall directory r,
         In (StartComposeStack directory r) (trace run) ->
         exists document,
           In (SaveComposeConfiguration document directory (Returned tt))
              (trace run))
  /\ (forall id r,
         In (SendAppEvent id r) (trace run) ->
         exists app directory,
           In (AppFindUnique (params_appId req) (Returned (Some app))) (trace run)
           /\ id = app_id app
           /\ In (StartComposeStack directory (Returned tt)) (trace run))
  /\ (forall body,
         In (ResStatusJson 200 body) (trace run) ->
         body = message "App is now running"
         /\ exists id, In (SendAppEvent id (Returned tt)) (trace run))
  /\ (forall r,
         In (CreateBuild req r) (trace run) ->
         result run = r
         /\ last (trace run) = Some (CreateBuild req r)
         /\ List.filter is_response (trace run) = []
         /\ existsb reuse_check_failed (trace run) = true).
Proof.
  intros run. subst run. unfold answered_once. start_cases C req w.
  all: explicit_run.
Qed.

(** X16: build creation takes the request over, and only after a failed
    check.  In every run of Start that calls the build-creation
    collaborator, one of the reuse checks has failed, the call is the last
    step, Start writes no response of its own and ends as the collaborator
    ends, returning when it returns and throwing what it throws. *)
Theorem build_creation_takes_over (req : Request) (w : W) (r : outcome unit) :
  let run := startApp C req w in
  In (CreateBuild req r) (trace run) ->
  result run = r
  /\ last (trace run) = Some (CreateBuild req r)
  /\ List.filter is_response (trace run) = []
  /\ existsb reuse_check_failed (trace run) = true.
Proof.
  intros run. destruct (start_runs req w) as (_ & _ & _ & _ & _ & Hbuild).
  exact (Hbuild r).
Qed.

(** X4: Start writes the configuration it starts.  In every run of
    Start, a configuration is saved only on the reuse path (nothing was
    handed to build creation); it is the document generated from the
    build found under the id derived from the image, whose availability
    the runtime confirmed, and from the fragments read for the app; when
    the save returns, the next step starts the stack in the directory
    just written, and when it throws, the error propagates and nothing is
    started.  Conversely the stack is only started in a directory whose
    configuration was just saved. *)
Theorem start_saves_what_it_starts (req : Request) (w : W) :
  let run := startApp C req w in
  (forall document directory r,
      In (SaveComposeConfiguration document directory r) (trace run) ->
      List.filter is_create_build (trace run) = []
      /\ (exists app image build f,
             In (AppFindUnique (params_appId req) (Returned (Some app)))
                (trace run)
             /\ In (IsImageAvailable image (Returned true)) (trace run)
             /\ In (BuildFindUnique (delete_first "dockerizalo-" image)
                      (Returned (Some build))) (trace run)
             /\ In (Transaction (app_id app) (Returned f)) (trace run)
             /\ document
                = Docker.createComposeConfiguration (dump C) build
                    (frag_ports f) (frag_volumes f) (frag_variables f)
                    (frag_networks f) (frag_labels f))
      /\ match r with
         | Returned _ =>
             exists r', event_after is_save_configuration (trace run)
                        = Some (StartComposeStack directory r')
         | Thrown e =>
             result run = Thrown e
             /\ List.filter is_start_stack (trace run) = []
         end)
  /\ (forall directory r,
         In (StartComposeStack directory r) (trace run) ->
         exists document,
           In (SaveComposeConfiguration document directory (Returned tt))
              (trace run)).
Proof.
  intros run.
  destruct (start_runs req w) as (_ & Hsave & Hstart & _).
  split; [exact Hsave | exact Hstart].
Qed.

(** X5: a lifecycle event follows a successful runtime call, and the
    success response follows the event.  In every run of Start (of Stop),
    an event is sent only for the app that was found and only after
    [startComposeStack] ([stopComposeStack]) returned; the 200 response is
    only written after the event was sent. *)
Theorem event_follows_runtime_success (req : Request) (w : W) :
  (forall id r,
      In (SendAppEvent id r) (trace (startApp C req w)) ->
      exists app directory,
        In (AppFindUnique (params_appId req) (Returned (Some app)))
           (trace (startApp C req w))
        /\ id = app_id app
        /\ In (StartComposeStack directory (Returned tt)) (trace (startApp C req w)))
  /\ (forall body,
         In (ResStatusJson 200 body) (trace (startApp C req w)) ->
         body = message "App is now running"
         /\ exists id, In (SendAppEvent id (Returned tt)) (trace (startApp C req w)))
  /\ (forall id r,
         In (SendAppEvent id r) (trace (stopApp C req w)) ->
         exists app directory,
           In (AppFindUnique (params_appId req) (Returned (Some app)))
              (trace (stopApp C req w))
           /\ id = app_id app
           /\ In (GetOrCreateAppDirectory app (Returned directory))
                 (trace (stopApp C req w))
           /\ In (StopComposeStack directory (Returned tt)) (trace (stopApp C req w)))
  /\ (forall body,
         In (ResStatusJson 200 body) (trace (stopApp C req w)) ->
         body = message "App has stopped"
         /\ exists id, In (SendAppEvent id (Returned tt)) (trace (stopApp C req w))).
Proof.
  destruct (start_runs req w) as (_ & _ & _ & Hevent & Hok & _).
  split; [exact Hevent|]. split; [exact Hok|].
  unfold_handler. repeat case_match; simplify_eq.
  all: explicit_run.
Qed.

(** X6: Stop does not catch a failure of the runtime.  When
    [stopComposeStack] throws in a run of Stop, the error comes out of the
    handler as it is, whether it carries an [err] field or not; no
    lifecycle event is sent and no response is written. *)
Theorem stop_failure_propagates (req : Request) (w : W)
    (directory : string) (e : exn) :
  In (StopComposeStack directory (Thrown e)) (trace (stopApp C req w)) ->
  result (stopApp C req w) = Thrown e
  /\ List.filter is_send_app_event (trace (stopApp C req w)) = []
  /\ List.filter is_response (trace (stopApp C req w)) = [].
Proof.
  revert directory e.
  unfold_handler. repeat case_match; simplify_eq.
  all: explicit_run.
Qed.

(** X7: every handler answers once.  In every run of the listing, the
    status stream, Start, Stop and the log stream, at most one answer is
    given (a JSON response, the hand-over to build creation, or the
    opening of an event stream), and exactly one when the handler
    returns. *)
Theorem handlers_answer_once (req : Request) (w : W) (fuel : nat) :
  answered_once (listApps C req w)
  /\ answered_once (listenApp C req w)
  /\ answered_once (startApp C req w)
  /\ answered_once (stopApp C req w)
  /\ answered_once (listenAppLogs C fuel req w).
Proof.
  split_and!.
  - unfold answered_once. unfold_handler. repeat case_match; simplify_eq.
    all: explicit_run.
  - unfold answered_once. unfold_handler. repeat case_match; simplify_eq.
    all: explicit_run.
  - exact (proj1 (start_runs req w)).
  - unfold answered_once. unfold_handler. repeat case_match; simplify_eq.
    all: explicit_run.
  - pose proof (loop_only_loop_events C req fuel 0) as Hkind.
    unfold answered_once. unfold_handler.
    unfold supervise_logs, result, trace in *.
    repeat case_match; simplify_eq.
    all: try solve [explicit_run].
    all: match goal with
         | H : promiseRetry _ _ _ _ _ ?w0 = (_, _, _) |- _ =>
             specialize (Hkind w0); rewrite H in Hkind; simpl in Hkind
         end.
    all: simpl; rewrite (loop_events_answer_nothing _ Hkind); simpl; split; [lia | done].
Qed.

End Start.

Section Opening.
Context {W : Type} (C : Collaborators W).
Variables (req : Request) (app : App) (w w1 w2 : W).

Hypothesis authenticated : authenticateUser C req w = (Returned tt, w1).
Hypothesis found :
  app_findUnique C (params_appId req) w1 = (Returned (Some app), w2).

Let headers : list event :=
  [ResSetHeader "Cache-Control" "no-cache";
   ResSetHeader "Content-Type" "text/event-stream";
   ResSetHeader "Connection" "keep-alive";
   ResFlushHeaders].

(** X8: the log stream of a running or restarting app.  The handler
    sends the event-stream headers, registers the abort of the signal on
    the close of the response, starts the retry loop and returns normally
    whatever becomes of the loop; everything in the trace after the
    listener is the loop's. *)
Theorem log_stream_opens (fuel : nat) (status : Js.value) (w3 : W) :
  getContainerStatus C (container_name (params_appId req)) w2
  = (Returned status, w3) ->
  status = Js.Str "running" \/ status = Js.Str "restarting" ->
  let loop := supervise_logs C fuel req w3 in
  listenAppLogs C fuel req w
  = (Returned tt, world loop,
     [AuthenticateUser req (Returned tt);
      AppFindUnique (params_appId req) (Returned (Some app));
      GetContainerStatus (container_name (params_appId req)) (Returned status)]
       ++ headers ++ [ResOnClose AbortAbort] ++ trace loop).
Proof.
  intros queried Hstatus loop. subst loop.
  unfold_handler. rewrite authenticated, found, queried.
  assert (negb (is_string "running" status) && negb (is_string "restarting" status)
          = false) as ->.
  { destruct Hstatus as [-> | ->]; reflexivity. }
  simpl. by destruct (supervise_logs C fuel req w3) as [[r w4] t].
Qed.

(** X9: the status stream.  For an existing app the handler sends the
    headers, subscribes the response to the app, registers the removal of
    that very subscription on the close of the response, and only then
    asks for the status of the container named after the app: when the
    runtime answers, one snapshot of the app with that status is written;
    when it throws, the error propagates with the subscription in place
    and nothing written. *)
Theorem status_stream_subscribes_then_writes
    (id : string) (r : outcome Js.value) (w3 w4 : W) :
  addAppSubscriber C app w2 = (Returned id, w3) ->
  getContainerStatus C (container_name (app_id app)) w3 = (r, w4) ->
  listenApp C req w
  = (match r with Returned _ => Returned tt | Thrown e => Thrown e end, w4,
     [AuthenticateUser req (Returned tt);
      AppFindUnique (params_appId req) (Returned (Some app))]
       ++ headers
       ++ [AddAppSubscriber app (Returned id);
           ResOnClose (RemoveAppSubscriber id app);
           GetContainerStatus (container_name (app_id app)) r]
       ++ match r with
          | Returned status => [ResWrite (app_with_status app status)]
          | Thrown _ => []
          end).
Proof.
  intros subscribed queried.
  unfold_handler. rewrite authenticated, found. simpl.
  rewrite subscribed. simpl. rewrite queried. by destruct r.
Qed.

End Opening.

Section Listing.
Context {W : Type} (C : Collaborators W).
Variables (req : Request) (apps : list App) (containers : gmap string Js.value)
  (w w1 w2 w3 : W).

Hypothesis authenticated : authenticateUser C req w = (Returned tt, w1).
Hypothesis listed : app_findMany C w1 = (Returned apps, w2).
Hypothesis snapshot : getAllContainersStatus C w2 = (Returned containers, w3).

Lemma app_with_status_fields (app : App) (status : Js.value) :
  exists ps,
    app_with_status app status = Js.Obj ps
    /\ Js.keys ps = ["id"; "name"; "status"]
    /\ Js.get "id" ps = Some (Js.Str (app_id app))
    /\ Js.get "name" ps = Some (Js.Str (app_name app))
    /\ Js.get "status" ps = Some status.
Proof. eexists. split; [reflexivity|]. split_and!; reflexivity. Qed.

(** X10: the listing.  One snapshot of the runtime is taken, whatever
    the number of apps, and the response has one entry per app, in the
    order of the store: the app's own fields with a [status] field added,
    which is the status the snapshot records under the app's listed name
    when it records one, and [exited] otherwise. *)
Theorem listing_has_one_entry_per_app :
  exists entries,
    listApps C req w
    = (Returned tt, w3,
       [AuthenticateUser req (Returned tt);
        AppFindMany (Returned apps);
        GetAllContainersStatus (Returned containers);
        ResStatusJson 200 (Js.Arr entries)])
    /\ length entries = length apps
    /\ forall i app,
        apps !! i = Some app ->
        exists ps status,
          entries !! i = Some (Js.Obj ps)
          /\ Js.get "id" ps = Some (Js.Str (app_id app))
          /\ Js.get "name" ps = Some (Js.Str (app_name app))
          /\ Js.get "status" ps = Some status
          /\ (forall entry recorded,
                 containers !! listed_name (app_id app) = Some (Js.Obj entry) ->
                 Js.get "status" entry = Some (Js.Str recorded) ->
                 status = Js.Str recorded)
          /\ (containers !! listed_name (app_id app) = None ->
              status = Js.Str "exited").
Proof.
  eexists. split; [|split].
  - unfold_handler. rewrite authenticated, listed, snapshot. reflexivity.
  - by rewrite length_map.
  - intros i app Hi.
    destruct (app_with_status_fields app
                (nullish_or (optional_status (containers !! listed_name (app_id app)))
                            (Js.Str "exited")))
      as (ps & Hobj & _ & Hid & Hname & Hstatus).
    exists ps, (nullish_or (optional_status (containers !! listed_name (app_id app)))
                           (Js.Str "exited")).
    split_and!; try done.
    + rewrite <- Hobj.
      change (map ?f apps) with (f <$> apps).
      by rewrite list_lookup_fmap, Hi.
    + intros entry recorded -> Hrecorded. simpl. by rewrite Hrecorded.
    + by intros ->.
Qed.

End Listing.

End AppsMore.

(** ** The handlers that write to the store *)

Module StoreFacts.
Import Run Apps AppsFacts Trace AppsMore Crud StoreHandlers.

(** Unfolds one of these handlers down to the calls of its collaborators. *)
Ltac unfold_store_handler :=
  unfold createApp, deleteApp, updateApp, respond, authenticate, find_app,
    core, store_call, sync_call, and_then, pure,
    res_status_json, bind, call, emit, ret.

Lemma is_string_true (literal : string) (x : Js.value) :
  is_string literal x = true -> x = Js.Str literal.
Proof.
  destruct x; simpl; try discriminate.
  intros Heq. apply bool_decide_eq_true in Heq. by subst.
Qed.

Section Store.
Context {W : Type} (C : Collaborators W) (S : Store W).

(** X11: an app is only created from validated data whose name is free.
    In every run of [createApp], [prisma.app.create] is called at most
    once, with the data the validator returned for the body, after the
    lookup by that name found nothing; the 201 response carries the record
    the store returned; and when the name is taken (the 400 response) or
    the body is refused (the validator throws), nothing is created. *)
Theorem create_needs_valid_data_and_free_name (req : StoreRequest) (w : W) :
  let run := createApp C S req w in
  (forall data r,
      In (AppCreate data r) run.2 ->
      validator_parse S (body req) = Returned data
      /\ In (AppFindByName (data_name data) (Returned None)) run.2)
  /\ (forall code response,
         In (Core (ResStatusJson code response)) run.2 ->
         In code [400%Z; 201%Z])
  /\ (forall response,
         In (Core (ResStatusJson 400 response)) run.2 ->
         response = message "An app with that name already exists"
         /\ List.filter is_write run.2 = []
         /\ exists data taken,
             validator_parse S (body req) = Returned data
             /\ In (AppFindByName (data_name data) (Returned (Some taken))) run.2)
  /\ (forall response,
         In (Core (ResStatusJson 201 response)) run.2 ->
         exists data app,
           In (AppCreate data (Returned app)) run.2
           /\ response = Js.Obj (app_props app))
  /\ (forall e,
         validator_parse S (body req) = Thrown e ->
         List.filter is_write run.2 = []
         /\ List.filter is_store_response run.2 = []
         /\ (In (Core (AuthenticateUser (route req) (Returned tt))) run.2 ->
             run.1.1 = Thrown e)).
Proof.
  intros run. subst run. unfold_store_handler.
  repeat case_match; simplify_eq.
  all: explicit_run.
Qed.

(** X12: a delete touches the stack and the disk only when forced, and
    then in order.  In every run of [deleteApp]: unless [req.query.force]
    is the string [true], the directory is neither created nor removed and
    the stack is not stopped; the record deleted is that of the app found;
    when forced, the record is only deleted after the stack was stopped in
    the app's directory and the directory removed; the directory is only
    removed after the stack was stopped; if the stop throws, the error
    propagates and neither the directory nor the record is removed. *)
Theorem delete_stops_the_stack_only_when_forced (req : StoreRequest) (w : W) :
  let run := deleteApp C S req w in
  (query_force req <> Js.Str "true" ->
   List.filter touches_stack_or_disk run.2 = [])
  /\ (forall id r,
         In (AppDelete id r) run.2 ->
         exists app,
           In (Core (AppFindUnique (params_appId (route req))
                       (Returned (Some app)))) run.2
           /\ id = app_id app
           /\ (query_force req = Js.Str "true" ->
               exists directory,
                 In (Core (GetOrCreateAppDirectory app (Returned directory))) run.2
                 /\ In (Core (StopComposeStack directory (Returned tt))) run.2
                 /\ In (DeleteAppDirectory app (Returned tt)) run.2))
  /\ (forall app r,
         In (DeleteAppDirectory app r) run.2 ->
         exists directory,
           In (Core (StopComposeStack directory (Returned tt))) run.2)
  /\ (forall response,
         In (Core (ResStatusJson 200 response)) run.2 ->
         response = message "The app has been deleted..."
         /\ exists id, In (AppDelete id (Returned tt)) run.2)
  /\ (forall directory e,
         In (Core (StopComposeStack directory (Thrown e))) run.2 ->
         run.1.1 = Thrown e /\ List.filter is_removal run.2 = []).
Proof.
  intros run. subst run. unfold_store_handler.
  destruct (is_string "true" (query_force req)) eqn:Hforce.
  - apply is_string_true in Hforce.
    repeat case_match; simplify_eq.
    all: explicit_run.
  - assert (query_force req <> Js.Str "true") as Hnot.
    { intros Heq. rewrite Heq in Hforce. discriminate Hforce. }
    clear Hforce. repeat case_match; simplify_eq.
    all: explicit_run.
Qed.

(** X13: an app is only updated with validated data whose name no other
    app has.  In every run of [updateApp]: the body is validated before
    the app is looked up; [prisma.app.update] is called with the data the
    validator returned, on the app found, after the lookup of another app
    with that name found nothing; the lifecycle event is sent only after
    the update returned, and the 200 response, which carries the updated
    record, only after the event; the 404 and 400 responses come with no
    write. *)
Theorem update_needs_valid_data_and_free_name (req : StoreRequest) (w : W) :
  let run := updateApp C S req w in
  (forall id r,
      In (Core (AppFindUnique id r)) run.2 ->
      exists data, validator_parse S (body req) = Returned data)
  /\ (forall data id r,
         In (AppUpdate data id r) run.2 ->
         validator_parse S (body req) = Returned data
         /\ exists app,
             In (Core (AppFindUnique (params_appId (route req))
                         (Returned (Some app)))) run.2
             /\ id = app_id app
             /\ In (AppFindOtherByName (data_name data) (app_id app)
                      (Returned None)) run.2)
  /\ (forall id r,
         In (Core (SendAppEvent id r)) run.2 ->
         exists data updated, In (AppUpdate data id (Returned updated)) run.2)
  /\ (forall response,
         In (Core (ResStatusJson 200 response)) run.2 ->
         exists data id updated,
           In (AppUpdate data id (Returned updated)) run.2
           /\ response = Js.Obj (app_props updated)
           /\ In (Core (SendAppEvent id (Returned tt))) run.2)
  /\ (forall response,
         In (Core (ResStatusJson 400 response)) run.2 ->
         response = message "An app with that name already exists"
         /\ List.filter is_write run.2 = [])
  /\ (forall response,
         In (Core (ResStatusJson 404 response)) run.2 ->
         response = message "An app with that id does not exist"
         /\ List.filter is_write run.2 = []).
Proof.
  intros run. subst run. unfold_store_handler.
  repeat case_match; simplify_eq.
  all: explicit_run.
Qed.

End Store.

Section Gate.
Context {W : Type} (C : Collaborators W) (S : Store W).
Variables (req : StoreRequest) (w w1 : W).

(** X14: nothing happens before authentication.  When [authenticateUser]
    throws, each of the eight handlers ends with that error after this one
    call: nothing is validated, read, written or answered. *)
Theorem unauthenticated_request_stops (e : exn) (fuel : nat) :
  authenticateUser C (route req) w = (Thrown e, w1) ->
  let denied := [AuthenticateUser (route req) (Thrown e)] in
  listApps C (route req) w = (Thrown e, w1, denied)
  /\ listenApp C (route req) w = (Thrown e, w1, denied)
  /\ startApp C (route req) w = (Thrown e, w1, denied)
  /\ stopApp C (route req) w = (Thrown e, w1, denied)
  /\ listenAppLogs C fuel (route req) w = (Thrown e, w1, denied)
  /\ createApp C S req w = (Thrown e, w1, map Core denied)
  /\ updateApp C S req w = (Thrown e, w1, map Core denied)
  /\ deleteApp C S req w = (Thrown e, w1, map Core denied).
Proof.
  intros Hdenied denied. subst denied.
  split_and!; unfold_handler; unfold_store_handler; by rewrite Hdenied.
Qed.

(** X15: an unknown app is answered with 404 and nothing else.  When the
    lookup by the [appId] of the request finds no app, Start, Stop, the
    log stream, the status stream and [deleteApp] answer 404 right after
    the lookup, and so does [updateApp] once the body is validated: the
    runtime is not asked anything and nothing is written. *)
Theorem unknown_app_is_not_found (fuel : nat) (w2 : W) (data : AppData) :
  authenticateUser C (route req) w = (Returned tt, w1) ->
  app_findUnique C (params_appId (route req)) w1 = (Returned None, w2) ->
  validator_parse S (body req) = Returned data ->
  let lookup := [AuthenticateUser (route req) (Returned tt);
                 AppFindUnique (params_appId (route req)) (Returned None)] in
  let not_found :=
    ResStatusJson 404 (message "An app with that id does not exist") in
  startApp C (route req) w = (Returned tt, w2, lookup ++ [not_found])
  /\ stopApp C (route req) w = (Returned tt, w2, lookup ++ [not_found])
  /\ listenAppLogs C fuel (route req) w = (Returned tt, w2, lookup ++ [not_found])
  /\ listenApp C (route req) w
     = (Returned tt, w2,
        lookup ++ [ResStatusJson 404 (message "There is no app with that id")])
  /\ deleteApp C S req w = (Returned tt, w2, map Core (lookup ++ [not_found]))
  /\ updateApp C S req w
     = (Returned tt, w2,
        [Core (AuthenticateUser (route req) (Returned tt));
         ValidatorParse (body req) (Returned data);
         Core (AppFindUnique (params_appId (route req)) (Returned None));
         Core not_found]).
Proof.
  intros Hauth Hfind Hvalid lookup not_found. subst lookup not_found.
  split_and!; unfold_handler; unfold_store_handler;
    rewrite ?Hauth; simpl; rewrite ?Hvalid; simpl; rewrite ?Hfind; reflexivity.
Qed.

End Gate.

End StoreFacts.

(** *** On the scripted world *)

Module MoreWitnesses.
Import Run Apps AppsFacts Trace AppsMore Crud StoreHandlers StoreFacts Script.

(** Stop when the runtime refuses to stop the stack. *)
Lemma stop_failure_propagates_witness :
  result (stopApp (Faults.collaborators None (Some Faults.daemon_down))
            start_a1 (ready (Some "running")))
  = Thrown Faults.daemon_down
  /\ List.filter is_response
       (trace (stopApp (Faults.collaborators None (Some Faults.daemon_down))
                 start_a1 (ready (Some "running")))) = [].
Proof.
  destruct (stop_failure_propagates
              (Faults.collaborators None (Some Faults.daemon_down))
              start_a1 (ready (Some "running")) "/apps/a1" Faults.daemon_down
              ltac:(vm_compute; tauto))
    as (Hresult & _ & Hresponse).
  exact (conj Hresult Hresponse).
Defined.

(** Start on an app without a directory. *)
Lemma build_creation_takes_over_witness :
  result (startApp Script.collaborators start_a1 unbuilt) = Returned tt
  /\ List.filter is_response (trace (startApp Script.collaborators start_a1 unbuilt))
     = [].
Proof.
  destruct (build_creation_takes_over Script.collaborators start_a1 unbuilt
              (Returned tt) ltac:(vm_compute; tauto))
    as (Hresult & _ & Hresponse & _).
  exact (conj Hresult Hresponse).
Defined.

(** The log stream of a running app whose logs come at once. *)
Lemma log_stream_opens_witness :
  listenAppLogs Script.collaborators 3 start_a1 (ready (Some "running"))
  = (Returned tt, ready (Some "running"),
     [AuthenticateUser start_a1 (Returned tt);
      AppFindUnique "a1" (Returned (Some web));
      GetContainerStatus "dockerizalo-a1" (Returned (Js.Str "running"));
      ResSetHeader "Cache-Control" "no-cache";
      ResSetHeader "Content-Type" "text/event-stream";
      ResSetHeader "Connection" "keep-alive";
      ResFlushHeaders;
      ResOnClose AbortAbort;
      ResWrite (Js.Str "line");
      GetContainerLogs "dockerizalo-a1" (Returned tt)]).
Proof.
  exact (log_stream_opens Script.collaborators start_a1 web
           (ready (Some "running")) _ _ eq_refl eq_refl 3 (Js.Str "running") _
           eq_refl (or_introl eq_refl)).
Defined.

(** The status stream of an exited app. *)
Lemma status_stream_subscribes_then_writes_witness :
  trace (listenApp Script.collaborators start_a1 (ready (Some "exited")))
  = [AuthenticateUser start_a1 (Returned tt);
     AppFindUnique "a1" (Returned (Some web));
     ResSetHeader "Cache-Control" "no-cache";
     ResSetHeader "Content-Type" "text/event-stream";
     ResSetHeader "Connection" "keep-alive";
     ResFlushHeaders;
     AddAppSubscriber web (Returned "1");
     ResOnClose (RemoveAppSubscriber "1" web);
     GetContainerStatus "dockerizalo-a1" (Returned (Js.Str "exited"));
     ResWrite (app_with_status web (Js.Str "exited"))].
Proof.
  exact (f_equal trace
           (status_stream_subscribes_then_writes Script.collaborators start_a1 web
              (ready (Some "exited")) _ _ eq_refl eq_refl "1"
              (Returned (Js.Str "exited")) _ _ eq_refl eq_refl)).
Defined.

(** The listing of one running app. *)
Lemma listing_has_one_entry_per_app_witness :
  exists entries,
    listApps Script.collaborators start_a1 (ready (Some "running"))
    = (Returned tt, ready (Some "running"),
       [AuthenticateUser start_a1 (Returned tt);
        AppFindMany (Returned [web]);
        GetAllContainersStatus (Returned (containers (ready (Some "running"))));
        ResStatusJson 200 (Js.Arr entries)])
    /\ length entries = 1.
Proof.
  destruct (listing_has_one_entry_per_app Script.collaborators start_a1 [web]
              (containers (ready (Some "running"))) (ready (Some "running")) _ _ _
              eq_refl eq_refl eq_refl)
    as (entries & Hrun & Hlength & _).
  exists entries. exact (conj Hrun Hlength).
Defined.

(** A request that is not authenticated. *)
Lemma unauthenticated_request_stops_witness :
  startApp (Faults.collaborators (Some Faults.unauthorized) None)
    start_a1 (ready (Some "exited"))
  = (Thrown Faults.unauthorized, ready (Some "exited"),
     [AuthenticateUser start_a1 (Thrown Faults.unauthorized)])
  /\ deleteApp (Faults.collaborators (Some Faults.unauthorized) None) Faults.store
       (Faults.store_request (Js.Str "true") Js.Undefined) (ready (Some "exited"))
     = (Thrown Faults.unauthorized, ready (Some "exited"),
        [Core (AuthenticateUser start_a1 (Thrown Faults.unauthorized))]).
Proof.
  destruct (unauthenticated_request_stops
              (Faults.collaborators (Some Faults.unauthorized) None) Faults.store
              (Faults.store_request (Js.Str "true") Js.Undefined)
              (ready (Some "exited")) _ Faults.unauthorized 0 eq_refl)
    as (_ & _ & Hstart & _ & _ & _ & _ & Hdelete).
  exact (conj Hstart Hdelete).
Defined.

(** A request for an app the store does not have. *)
Lemma unknown_app_is_not_found_witness :
  stopApp Script.collaborators start_a1 (Faults.with_apps [] (ready None))
  = (Returned tt, Faults.with_apps [] (ready None),
     [AuthenticateUser start_a1 (Returned tt);
      AppFindUnique "a1" (Returned None);
      ResStatusJson 404 (message "An app with that id does not exist")]).
Proof.
  destruct (unknown_app_is_not_found Script.collaborators Faults.store
              (Faults.store_request Js.Undefined (Faults.named "web"))
              (Faults.with_apps [] (ready None)) _ 0 _
              {| data_name := "web" |} eq_refl eq_refl eq_refl)
    as (_ & Hstop & _).
  exact Hstop.
Defined.

(** A forced delete stops the stack, removes the directory, then the
    record; an unforced one only removes the record. *)
Example forced_and_unforced_delete :
  (deleteApp Script.collaborators Faults.store
     (Faults.store_request (Js.Str "true") Js.Undefined) (ready (Some "running"))).2
  = [Core (AuthenticateUser start_a1 (Returned tt));
     Core (AppFindUnique "a1" (Returned (Some web)));
     Core (GetOrCreateAppDirectory web (Returned "/apps/a1"));
     Core (StopComposeStack "/apps/a1" (Returned tt));
     DeleteAppDirectory web (Returned tt);
     AppDelete "a1" (Returned tt);
     Core (ResStatusJson 200 (message "The app has been deleted..."))]
  /\ (deleteApp Script.collaborators Faults.store
        (Faults.store_request (Js.Bool true) Js.Undefined) (ready (Some "running"))).2
     = [Core (AuthenticateUser start_a1 (Returned tt));
        Core (AppFindUnique "a1" (Returned (Some web)));
        AppDelete "a1" (Returned tt);
        Core (ResStatusJson 200 (message "The app has been deleted..."))].
Proof. split; vm_compute; reflexivity. Qed.

(** A second app may not take the name of the first; a new name is
    created and answered with 201. *)
Example create_taken_and_free_name :
  (createApp Script.collaborators Faults.store
     (Faults.store_request Js.Undefined (Faults.named "web")) (ready None)).2
  = [Core (AuthenticateUser start_a1 (Returned tt));
     ValidatorParse (Faults.named "web") (Returned {| data_name := "web" |});
     AppFindByName "web" (Returned (Some web));
     Core (ResStatusJson 400 (message "An app with that name already exists"))]
  /\ (createApp Script.collaborators Faults.store
        (Faults.store_request Js.Undefined (Faults.named "api")) (ready None)).2
     = [Core (AuthenticateUser start_a1 (Returned tt));
        ValidatorParse (Faults.named "api") (Returned {| data_name := "api" |});
        AppFindByName "api" (Returned None);
        AppCreate {| data_name := "api" |}
          (Returned {| app_id := "a2"; app_name := "api" |});
        Core (ResStatusJson 201
                (Js.Obj [("id", Js.Str "a2"); ("name", Js.Str "api")]))].
Proof. split; vm_compute; reflexivity. Qed.

(** An app may keep its own name on update. *)
Example update_keeps_own_name :
  (updateApp Script.collaborators Faults.store
     (Faults.store_request Js.Undefined (Faults.named "web")) (ready None)).2
  = [Core (AuthenticateUser start_a1 (Returned tt));
     ValidatorParse (Faults.named "web") (Returned {| data_name := "web" |});
     Core (AppFindUnique "a1" (Returned (Some web)));
     AppFindOtherByName "web" "a1" (Returned None);
     AppUpdate {| data_name := "web" |} "a1" (Returned web);
     Core (SendAppEvent "a1" (Returned tt));
     Core (ResStatusJson 200 (Js.Obj [("id", Js.Str "a1"); ("name", Js.Str "web")]))].
Proof. vm_compute. reflexivity. Qed.

End MoreWitnesses.

(** ** Where the code departs from two claims, and the container names *)

Module Revisited.
Import Run Apps AppsFacts Trace AppsMore Naming Script.

(** C1, the failing run.  The configuration on disk names the image [b1];
    a build with id [b1] exists and the runtime has an image tagged [b1],
    so every reuse check passes and nothing is handed to build creation.
    Start then saves the configuration generated from that build, whose
    image is [dockerizalo-b1], and starts the stack on it, although the
    runtime answers [false] for that tag. *)
Lemma start_on_untested_tag :
  trace (startApp Script.collaborators start_a1 Retag.bare_id)
  = [AuthenticateUser start_a1 (Returned tt);
     AppFindUnique "a1" (Returned (Some web));
     GetContainerStatus "dockerizalo-a1" (Returned Js.Undefined);
     GetAppDirectory web (Returned (Some "/apps/a1"));
     GetComposeConfiguration "/apps/a1"
       (Returned (Some (Js.Obj [("image", Js.Str "b1")])));
     GetComposeImage (Js.Obj [("image", Js.Str "b1")]) (Returned (Some "b1"));
     BuildFindUnique "b1"
       (Returned (Some {| build_id := "b1"; build_appId := "a1" |}));
     IsImageAvailable "b1" (Returned true);
     Transaction "a1" (Returned no_fragments);
     SaveComposeConfiguration
       (Docker.createComposeConfiguration (dump Script.collaborators)
          {| build_id := "b1"; build_appId := "a1" |} [] [] [] [] [])
       "/apps/a1" (Returned tt);
     StartComposeStack "/apps/a1" (Returned tt);
     SendAppEvent "a1" (Returned tt);
     ResStatusJson 200 (message "App is now running")]
  /\ Docker.service_section "image"
       (Docker.compose {| build_id := "b1"; build_appId := "a1" |} [] [] [] [] [])
     = Some (Js.Str "dockerizalo-b1")
  /\ isImageAvailable Script.collaborators "dockerizalo-b1" Retag.bare_id
     = (Returned false, Retag.bare_id)
  /\ List.filter is_create_build
       (trace (startApp Script.collaborators start_a1 Retag.bare_id)) = [].
Proof. split_and!; vm_compute; reflexivity. Qed.

(** C8, the failing run.  [startComposeStack] rejects with the string
    [boom]: the test ["err" in e] throws, and what leaves Start is that
    [TypeError], not the value thrown. *)
Lemma thrown_value_is_replaced :
  In (StartComposeStack "/apps/a1" (Thrown (Primitive "boom")))
     (trace (startApp Script.collaborators start_a1 Retag.rejects_with_string))
  /\ in_err (Primitive "boom")
     = Thrown (ErrorObject None
                 "TypeError: Cannot use 'in' operator to search for 'err'")
  /\ result (startApp Script.collaborators start_a1 Retag.rejects_with_string)
     = Thrown (ErrorObject None
                 "TypeError: Cannot use 'in' operator to search for 'err'").
Proof. split_and!; vm_compute; tauto. Qed.

Section Names.
Context {W : Type} (C : Collaborators W).


End Names.



End Revisited.
